(** * The AI detection bridge of the civic-issue reporting application

    A shallow embedding of the two detection services of the repository:

    - [AiService]: [community-alert-dash/src/services/aiService.ts], the
      upload + event-stream transport against the Gradio HTTP routes;
    - [GradioClientService]: the service built on [@gradio/client] (the
      second source text of [src/lib/mockData.ts]), which classifies by
      keyword matching on the returned classification text.

    Both files carry identical copies of [DEPARTMENT_MAP] and
    [mockAIDetection]; they are embedded once.

    Conventions.  JavaScript strings are embedded as [string]; the texts the
    code inspects are compared against ASCII literals only, and
    [toLowerCase] is embedded on the ASCII range.  A value that may be
    [undefined] is an [option]; numbers are rationals ([Q]), on which
    arithmetic is exact where the code rounds to double precision.  [await]
    is sequential composition: promises are embedded by their outcome, a
    value or a thrown exception, so every request settles; a response body
    is a finite sequence of chunks.  Console output and the artificial
    delay of the mock classifier have no effect on any returned value and
    are left out.

    [handleImageChange] of [src/pages/UserDashboard.tsx], which calls the
    detection, is embedded over either service. *)

From Stdlib Require Import String Ascii List Bool Arith NArith ZArith.
From Stdlib Require Import QArith Qround Lqa DecimalString Lia.
Import ListNotations.

Set Warnings "-register-all".

Close Scope Q_scope.
Local Open Scope list_scope.
Local Open Scope string_scope.

(* ================================================================== *)
(** * Definitions *)
(* ================================================================== *)

(** ** JavaScript strings *)

(** [s.startsWith(p)] *)
Fixpoint startsWith (s p : string) {struct p} : bool :=
  match p with
  | EmptyString => true
  | String a p' =>
      match s with
      | EmptyString => false
      | String b s' => Ascii.eqb a b && startsWith s' p'
      end
  end.

(** [s.includes(needle)] *)
Fixpoint includes (s needle : string) : bool :=
  startsWith s needle ||
  match s with
  | EmptyString => false
  | String _ s' => includes s' needle
  end.

Definition lower_ascii (c : ascii) : ascii :=
  let n := N_of_ascii c in
  if (65 <=? n)%N && (n <=? 90)%N then ascii_of_N (n + 32) else c.

(** [s.toLowerCase()] *)
Fixpoint toLowerCase (s : string) : string :=
  match s with
  | EmptyString => EmptyString
  | String c s' => String (lower_ascii c) (toLowerCase s')
  end.

(** [s.substring(n)] *)
Fixpoint substring_from (n : nat) (s : string) : string :=
  match n, s with
  | O, _ => s
  | S n', String _ s' => substring_from n' s'
  | S _, EmptyString => EmptyString
  end.

Definition newline : ascii := ascii_of_nat 10.

(** [s.split('\n')] *)
Fixpoint split_newline (s : string) : list string :=
  match s with
  | EmptyString => [EmptyString]
  | String c s' =>
      if Ascii.eqb c newline then EmptyString :: split_newline s'
      else match split_newline s' with
           | [] => [String c EmptyString]
           | line :: lines => String c line :: lines
           end
  end.

(** Truthiness of a string: [if (s)]. *)
Definition nonempty (s : string) : bool :=
  match s with
  | EmptyString => false
  | String _ _ => true
  end.

(** [s.endsWith(suffix)], used to phrase expectations on URLs. *)
Fixpoint endsWith (s suffix : string) : bool :=
  String.eqb s suffix ||
  match s with
  | EmptyString => false
  | String _ s' => endsWith s' suffix
  end.

(** ** [toAbsoluteGradioFileUrl] *)

Definition SPACE_ORIGIN : string := "https://utkarsh-23-pothole-yolo.hf.space".

Definition toAbsoluteGradioFileUrl (rel : string) : string :=
  if negb (nonempty rel) then ""
  else if startsWith rel "http" then rel
  else if startsWith rel "/file=" then SPACE_ORIGIN ++ rel
  else if startsWith rel "/gradio_api/file=" then SPACE_ORIGIN ++ rel
  else if startsWith rel "/gradio_api/file/" then SPACE_ORIGIN ++ rel
  else if startsWith rel "/tmp/" then SPACE_ORIGIN ++ "/file=" ++ rel
  else if startsWith rel "tmp/" then SPACE_ORIGIN ++ "/file=/" ++ rel
  else if startsWith rel "file=" then SPACE_ORIGIN ++ "/" ++ rel
  else if startsWith rel "file/" then SPACE_ORIGIN ++ "/gradio_api/" ++ rel
  else
    let needsSlash := negb (startsWith rel "/") in
    SPACE_ORIGIN ++ "/file=" ++ (if needsSlash then "/" else "") ++ rel.

(** ** JSON values and the JavaScript operations applied to them *)

(** The values [JSON.parse] produces.  An object is the list of its own
    properties, each name occurring once. *)
Inductive json : Type :=
| JNull
| JBool (b : bool)
| JNum (n : Q)
| JStr (s : string)
| JArr (items : list json)
| JObj (fields : list (string * json)).

(** A JavaScript value read from parsed JSON: [None] is [undefined]. *)
Definition jsval : Type := option json.

Fixpoint lookup {A : Type} (k : string) (fields : list (string * A)) : option A :=
  match fields with
  | [] => None
  | (k', v) :: rest => if String.eqb k k' then Some v else lookup k rest
  end.

Fixpoint height (j : json) : nat :=
  match j with
  | JArr items => S (fold_right (fun x h => Nat.max (height x) h) 0 items)
  | JObj fields => S (fold_right (fun kv h => Nat.max (height (snd kv)) h) 0 fields)
  | _ => 0
  end.

Definition jsheight (v : jsval) : nat :=
  match v with
  | None => 0
  | Some j => height j
  end.

(** [Boolean(v)] *)
Definition truthy (v : jsval) : bool :=
  match v with
  | None => false
  | Some JNull => false
  | Some (JBool b) => b
  | Some (JNum n) => negb (Qeq_bool n 0)
  | Some (JStr s) => nonempty s
  | Some (JArr _) => true
  | Some (JObj _) => true
  end.

Definition isArray (v : jsval) : bool :=
  match v with
  | Some (JArr _) => true
  | _ => false
  end.

(** Exceptions and promise rejections. *)
Inductive exn : Type :=
| Error (message : string)
| TypeError
| SyntaxError
| Rejection.

Inductive outcome (A : Type) : Type :=
| Ok (a : A)
| Throw (e : exn).
Arguments Ok {A} a.
Arguments Throw {A} e.

Definition bind {A B : Type} (c : outcome A) (k : A -> outcome B) : outcome B :=
  match c with
  | Ok a => k a
  | Throw e => Throw e
  end.

Notation "x <- c ;; k" := (bind c (fun x => k))
  (at level 61, c at next level, right associativity).

(** [try { body } catch (e) { handler(e) }] *)
Definition try_catch {A : Type} (body : outcome A) (handler : exn -> outcome A)
  : outcome A :=
  match body with
  | Ok a => Ok a
  | Throw e => handler e
  end.

(** [v.k] for the property names the services read ([output], [data],
    [value], [url], [path], [name], [files], [file], [event_id]): none of
    them exists on a string, an array, a number or a boolean; reading a
    property of [null] or [undefined] is a [TypeError]. *)
Definition get (v : jsval) (k : string) : outcome jsval :=
  match v with
  | None => Throw TypeError
  | Some JNull => Throw TypeError
  | Some (JObj fields) => Ok (lookup k fields)
  | Some _ => Ok None
  end.

(** [v?.k], same property names. *)
Definition get_optional (v : jsval) (k : string) : jsval :=
  match v with
  | Some (JObj fields) => lookup k fields
  | _ => None
  end.

(** [v.length] of a truthy value. *)
Definition js_length (v : json) : jsval :=
  match v with
  | JStr s => Some (JNum (inject_Z (Z.of_nat (String.length s))))
  | JArr items => Some (JNum (inject_Z (Z.of_nat (List.length items))))
  | JObj fields => lookup "length" fields
  | _ => None
  end.

(** [v[0]] of a truthy value. *)
Definition js_first (v : json) : jsval :=
  match v with
  | JStr (String c _) => Some (JStr (String c EmptyString))
  | JArr (x :: _) => Some x
  | JObj fields => lookup "0" fields
  | _ => None
  end.

(** The built-ins of the platform whose result the services depend on and
    whose definition is the language's, not the repository's. *)
Class Platform : Type := {
  (** [JSON.parse(text)]; [None] is a [SyntaxError]. *)
  JSON_parse : string -> option json;
  (** [`${v}`] for a value that is not a string. *)
  ToString : json -> string;
  (** [v > 0] for a value that is a string, an array or an object. *)
  coerced_gt_zero : json -> bool
}.

(** [v > 0] *)
Definition gt_zero `{Platform} (v : jsval) : bool :=
  match v with
  | None => false
  | Some JNull => false
  | Some (JBool b) => b
  | Some (JNum n) => negb (Qle_bool n 0)
  | Some other => coerced_gt_zero other
  end.

(** [`${v}`] *)
Definition template `{Platform} (v : json) : string :=
  match v with
  | JStr s => s
  | other => ToString other
  end.

Definition show_N (n : N) : string := NilZero.string_of_uint (N.to_uint n).

(** ** Files, the random source, detection results *)

Record File : Type := {
  name : string;
  type : string;
  content : string
}.

(** [Math.random()] returns a number that is at least 0 and less than 1. *)
Record unit_interval : Type := {
  sample : Q;
  sample_range : Qle_bool 0 sample && negb (Qle_bool 1 sample) = true
}.

(** The generator behind [Math.random]: the only state that outlives a
    call of the services. *)
Record RandomSource : Type := {
  draws : nat -> unit_interval;
  cursor : nat
}.

Definition Math_random (g : RandomSource) : Q * RandomSource :=
  (sample (draws g (cursor g)), {| draws := draws g; cursor := S (cursor g) |}).

Definition Math_floor (x : Q) : Z := Qfloor x.

(** [xs[i]] for an integer [i]. *)
Definition index {A : Type} (xs : list A) (i : Z) : option A :=
  if (i <? 0)%Z then None else nth_error xs (Z.to_nat i).

(** [interface AIDetectionResult]; [None] is an absent or [undefined]
    property. *)
Record AIDetectionResult : Type := {
  category : option string;
  department : option string;
  confidence : option Q;
  detectedLabels : option (list string);
  processedImageUrl : jsval
}.

Definition DEPARTMENT_MAP : list (string * string) :=
  [ ("pothole", "Road Maintenance");
    ("garbage", "Sanitation");
    ("streetlight", "Public Works");
    ("water", "Water Department");
    ("drainage", "Public Works");
    ("other", "General Services") ].

(** The key a possibly undefined string denotes in [record[key]] and the
    text it gives in a template literal. *)
Definition key_of (c : option string) : string :=
  match c with
  | Some s => s
  | None => "undefined"
  end.

(** ** [mockAIDetection] *)

Definition categories : list string := ["pothole"; "garbage"; "streetlight"; "other"].

(** The confidence is the exact value of [0.75 + r * 0.2]; the code computes
    it in double precision, which rounds it by at most one unit in the last
    place and can reach 0.95 itself.  Bounds on it are therefore stated
    with both ends included. *)
Definition mockAIDetection (imageFile : File) (g : RandomSource)
  : AIDetectionResult * RandomSource :=
  let filename := toLowerCase (name imageFile) in
  let '(category, g) :=
    if includes filename "pothole" || includes filename "road" then
      (Some "pothole", g)
    else if includes filename "garbage" || includes filename "trash" then
      (Some "garbage", g)
    else if includes filename "light" || includes filename "lamp" then
      (Some "streetlight", g)
    else
      let '(r, g) := Math_random g in
      (index categories
         (Math_floor (r * inject_Z (Z.of_nat (List.length categories)))), g) in
  let '(r, g) := Math_random g in
  ({| category := category;
      department := lookup (key_of category) DEPARTMENT_MAP;
      confidence := Some (0.75 + r * 0.2)%Q;
      detectedLabels := Some ["mock_" ++ key_of category ++ "_label"];
      processedImageUrl := None |}, g).

(** The shape section 3 of the specification gives a detection result:
    one of the four categories, a department, a confidence (when present)
    between 0 and 1, an annotated-image URL (when present) that is a
    string. *)
Definition valid_category (c : string) : bool :=
  existsb (String.eqb c) categories.

Definition well_formed (r : AIDetectionResult) : bool :=
  match category r with
  | Some c => valid_category c
  | None => false
  end
  && match department r with
     | Some _ => true
     | None => false
     end
  && match confidence r with
     | Some q => Qle_bool 0 q && Qle_bool q 1
     | None => true
     end
  && match processedImageUrl r with
     | None => true
     | Some (JStr _) => true
     | Some _ => false
     end.

(** ** The remote inference service, as [fetch] sees it *)

(** The body of a response, read chunk by chunk; each chunk is given as the
    text the decoder produces for it.  [reader.read()] either yields the
    next chunk, reports the end of the stream, or rejects.  The streams
    described are those that end or break after finitely many chunks; the
    services set no timeout, and on a stream that never ends they go on
    reading. *)
Inductive ReadableStream : Type :=
| StreamDone
| StreamChunk (text : string) (rest : ReadableStream)
| StreamError.

Record Response : Type := {
  ok : bool;
  status : N;
  statusText : string;
  contentType : option string;      (* [headers.get('content-type')] *)
  body : option ReadableStream
}.

Inductive RequestBody : Type :=
| NoBody
| FormData (entries : list (string * File))
| JsonBody (value : json).            (* [JSON.stringify(value)] *)

Record Request : Type := {
  url : string;
  method : string;
  headers : list (string * string);
  payload : RequestBody
}.

(** A deterministic stub of the remote service: [fetch] rejects ([Throw])
    or resolves to a response.  A request that never settles is not
    described; the services set no timeout and would wait for it. *)
Definition Fetch : Type := Request -> outcome Response.

Fixpoint stream_text (s : ReadableStream) : outcome string :=
  match s with
  | StreamDone => Ok ""
  | StreamChunk text rest => tail <- stream_text rest ;; Ok (text ++ tail)
  | StreamError => Throw Rejection
  end.

(** [response.text()] *)
Definition Response_text (r : Response) : outcome string :=
  match body r with
  | None => Ok ""
  | Some s => stream_text s
  end.

(** [response.json()] *)
Definition Response_json `{Platform} (r : Response) : outcome json :=
  text <- Response_text r ;;
  match JSON_parse text with
  | Some j => Ok j
  | None => Throw SyntaxError
  end.

(** [if (token) headers["Authorization"] = `Bearer ${token}`] *)
Definition authorization (token : option string) : list (string * string) :=
  match token with
  | Some t => if nonempty t then [("Authorization", "Bearer " ++ t)] else []
  | None => []
  end.

(** The loop [for (const c of xs) { const u = f(c); if (u) return u; }
    return '';] shared by the array and the object case of
    [extractUrlFromOutput]. *)
Fixpoint first_extracted (f : jsval -> string) (xs : list jsval) : string :=
  match xs with
  | [] => ""
  | c :: rest => let u := f c in if nonempty u then u else first_extracted f rest
  end.

(** ** [community-alert-dash/src/services/aiService.ts] *)

Module AiService.
Section WithPlatform.
Context `{Platform}.
Variable fetch : Fetch.

(** [extractUrlFromOutput], the local function of [getGradioResult]; the
    recursion descends into the value, [fuel] bounds its depth. *)
Fixpoint extractUrlFromOutput_rec (fuel : nat) (output : jsval) : string :=
  match fuel with
  | O => ""
  | S fuel' =>
      if negb (truthy output) then ""
      else
        match output with
        | Some (JStr s) =>
            if startsWith s "data:image/" then s
            else toAbsoluteGradioFileUrl s
        | Some (JArr items) =>
            first_extracted (extractUrlFromOutput_rec fuel') (map Some items)
        | Some (JObj obj) =>
            let candidates :=
              filter truthy
                [ lookup "url" obj;
                  lookup "path" obj;
                  lookup "name" obj;
                  lookup "value" obj;
                  get_optional (lookup "data" obj) "url";
                  get_optional (lookup "data" obj) "path";
                  get_optional (lookup "data" obj) "name" ] in
            first_extracted (extractUrlFromOutput_rec fuel') candidates
        | _ => ""
        end
  end.

Definition extractUrlFromOutput (output : jsval) : string :=
  extractUrlFromOutput_rec (S (jsheight output)) output.

(** The statements of the [try] block that follow [JSON.parse], for one
    frame: [Some u] when one of the four probes assigns
    [processedImageUrl = u] and leaves the [for] loop, [None] when the
    block runs to its end. *)
Definition probe_frame (processedImageUrl : string) (jsonData : json)
  : outcome (option string) :=
  let u1 :=
    if negb (nonempty processedImageUrl) && isArray (Some jsonData)
    then extractUrlFromOutput (Some jsonData) else "" in
  if nonempty u1 then Ok (Some u1)
  else
    output <- get (Some jsonData) "output" ;;
    output_data <- (if truthy output then get output "data" else Ok output) ;;
    let u2 := if truthy output_data then extractUrlFromOutput output_data else "" in
    if nonempty u2 then Ok (Some u2)
    else
      data <- get (Some jsonData) "data" ;;
      let u3 :=
        if negb (nonempty processedImageUrl) && isArray data
        then extractUrlFromOutput data else "" in
      if nonempty u3 then Ok (Some u3)
      else
        output_value <-
          (if negb (nonempty processedImageUrl) && truthy output
           then get output "value" else Ok None) ;;
        let u4 :=
          if truthy output_value then extractUrlFromOutput output_value else "" in
        if nonempty u4 then Ok (Some u4) else Ok None.

(** One iteration of [for (const line of lines)]; parse errors and every
    other exception of the [try] block are ignored. *)
Definition scan_line (processedImageUrl : string) (line : string) : option string :=
  if startsWith line "data: " then
    match
      match JSON_parse (substring_from 6 line) with
      | Some jsonData => probe_frame processedImageUrl jsonData
      | None => Throw SyntaxError
      end
    with
    | Ok found => found
    | Throw _ => None
    end
  else None.

(** [for (const line of lines)]: the value of [processedImageUrl] when the
    loop is left. *)
Fixpoint scan_lines (processedImageUrl : string) (lines : list string) : string :=
  match lines with
  | [] => processedImageUrl
  | line :: rest =>
      match scan_line processedImageUrl line with
      | Some u => u
      | None => scan_lines processedImageUrl rest
      end
  end.

(** [while (true)]: the values of [processedImageUrl] and [fullData] when
    the loop is left. *)
Fixpoint read_frames (reader : ReadableStream) (processedImageUrl fullData : string)
  : outcome (string * string) :=
  match reader with
  | StreamError => Throw Rejection
  | StreamDone => Ok (processedImageUrl, fullData)
  | StreamChunk chunk rest =>
      let fullData := fullData ++ chunk in
      let lines := split_newline chunk in
      let processedImageUrl := scan_lines processedImageUrl lines in
      if nonempty processedImageUrl then Ok (processedImageUrl, fullData)
      else read_frames rest processedImageUrl fullData
  end.

Definition getGradioResult (eventId : json) (token : option string)
  : outcome AIDetectionResult :=
  try_catch
    (let RESULT_URL := SPACE_ORIGIN ++ "/gradio_api/call/predict/" ++ template eventId in
     let resultHeaders := authorization token in
     response <- fetch {| url := RESULT_URL; method := "GET";
                          headers := resultHeaders; payload := NoBody |} ;;
     if negb (ok response) then
       Throw (Error ("Failed to get result: " ++ show_N (status response)))
     else
       match body response with
       | None => Throw (Error "No response body")
       | Some reader =>
           scanned <- read_frames reader "" "" ;;
           let processedImageUrl := fst scanned in
           if negb (nonempty processedImageUrl) then
             Throw (Error "No processed image URL in response")
           else
             Ok {| category := Some "pothole";
                   department := lookup "pothole" DEPARTMENT_MAP;
                   confidence := Some 0.85%Q;
                   detectedLabels := Some ["pothole detected by YOLO"];
                   processedImageUrl := Some (JStr processedImageUrl) |}
       end)
    (fun error => Throw error).

(** The file path [uploadImageToGradio] takes from the upload response. *)
Definition uploaded_filePath (uploadData : json) : outcome jsval :=
  match uploadData with
  | JArr (first :: _) => Ok (Some first)
  | _ =>
      files <- get (Some uploadData) "files" ;;
      if truthy files
         && match files with
            | Some f => gt_zero (js_length f)
            | None => false
            end
      then Ok (match files with Some f => js_first f | None => None end)
      else
        file <- get (Some uploadData) "file" ;;
        if truthy file then Ok file else Ok (Some (JStr ""))
  end.

Definition uploadImageToGradio (imageFile : File) (token : option string)
  : outcome json :=
  try_catch
    (let uploadUrl := "https://utkarsh-23-pothole-yolo.hf.space/gradio_api/upload" in
     let uploadHeaders := authorization token in
     uploadResponse <- fetch {| url := uploadUrl; method := "POST";
                                headers := uploadHeaders;
                                payload := FormData [("files", imageFile)] |} ;;
     if negb (ok uploadResponse) then
       Throw (Error ("Upload failed: " ++ show_N (status uploadResponse)
                       ++ " " ++ statusText uploadResponse))
     else
       let ct := match contentType uploadResponse with
                 | Some c => c
                 | None => ""
                 end in
       uploadData <- (if includes ct "application/json"
                      then Response_json uploadResponse
                      else text <- Response_text uploadResponse ;; Ok (JStr text)) ;;
       filePath <- uploaded_filePath uploadData ;;
       if negb (truthy filePath) then
         Throw (Error "No file path received from upload")
       else
         match filePath with
         | Some (JStr path) =>
             let predictUrl :=
               "https://utkarsh-23-pothole-yolo.hf.space/gradio_api/call/predict" in
             let predictHeaders :=
               ("Content-Type", "application/json") :: authorization token in
             predictResp <-
               fetch {| url := predictUrl; method := "POST";
                        headers := predictHeaders;
                        payload :=
                          JsonBody
                            (JObj [("data",
                               JArr [JObj [("path", JStr path);
                                           ("url", JStr (toAbsoluteGradioFileUrl path));
                                           ("meta", JObj [("_type", JStr "gradio.FileData")])]])]) |} ;;
             if negb (ok predictResp) then
               errorText <- Response_text predictResp ;;
               Throw (Error ("Gradio API error: " ++ show_N (status predictResp)
                               ++ " " ++ statusText predictResp))
             else
               predictData <- Response_json predictResp ;;
               event_id <- get (Some predictData) "event_id" ;;
               Ok (match event_id with
                   | Some id => id
                   | None => JNull
                   end)
         | _ =>
             (* [rel.startsWith] is not a function on a value that is not a string *)
             Throw TypeError
         end)
    (fun error => Throw error).

(** The [try] block of [detectIssueWithAI]. *)
Definition detectIssueWithAI_try (imageFile : File) (huggingFaceToken : option string)
  : outcome AIDetectionResult :=
  eventId <- uploadImageToGradio imageFile huggingFaceToken ;;
  if negb (truthy (Some eventId)) then
    Throw (Error "Failed to get event ID from Gradio")
  else
    result <- getGradioResult eventId huggingFaceToken ;;
    Ok result.

Definition detectIssueWithAI (imageFile : File) (huggingFaceToken : option string)
    (g : RandomSource) : outcome AIDetectionResult * RandomSource :=
  match detectIssueWithAI_try imageFile huggingFaceToken with
  | Ok result => (Ok result, g)
  | Throw error =>
      let '(fallback, g) := mockAIDetection imageFile g in
      (Ok fallback, g)
  end.

End WithPlatform.
End AiService.

(** ** The service built on [@gradio/client] *)

Module GradioClientService.

Record Blob : Type := {
  blob_parts : list File;
  blob_type : string
}.

(** The client library, as the service sees it: [predict] rejects or
    resolves to a result, given here by its [data] property. *)
Record Client : Type := {
  predict : string -> list (string * Blob) -> outcome jsval
}.

(** A deterministic stub of [Client.connect]. *)
Definition Connect : Type := string -> outcome Client.

(** [const [first, second] = data]: an array gives its first two elements,
    a string its first two characters, anything else is not iterable. *)
Definition destructure_pair (data : jsval) : outcome (jsval * jsval) :=
  match data with
  | Some (JArr items) => Ok (nth_error items 0, nth_error items 1)
  | Some (JStr s) =>
      Ok (match s with
          | String a rest =>
              (Some (JStr (String a EmptyString)),
               match rest with
               | String b _ => Some (JStr (String b EmptyString))
               | EmptyString => None
               end)
          | EmptyString => (None, None)
          end)
  | _ => Throw TypeError
  end.

Definition extractCategoryFromClassification (classification : string) : string :=
  let lowerText := toLowerCase classification in
  if includes lowerText "pothole"
     || includes lowerText "road"
     || includes lowerText "road maintenance"
  then "pothole"
  else if includes lowerText "garbage"
          || includes lowerText "waste"
          || includes lowerText "sanitation"
          || includes lowerText "trash"
  then "garbage"
  else if includes lowerText "light"
          || includes lowerText "lamp"
          || includes lowerText "public works"
  then "streetlight"
  else "other".

Section WithClient.
Variable Client_connect : Connect.

(** The [try] block of [detectIssueWithAI]. *)
Definition detectIssueWithAI_try (imageFile : File) (huggingFaceToken : option string)
  : outcome AIDetectionResult :=
  client <- Client_connect "utkarsh-23/garbage-pothole-detector-app" ;;
  let blob := {| blob_parts := [imageFile]; blob_type := type imageFile |} in
  data <- predict client "/detect_image_1" [("image", blob)] ;;
  pair <- destructure_pair data ;;
  let detectionImage := fst pair in
  let classification := snd pair in
  match classification with
  | Some (JStr text) =>
      let category := extractCategoryFromClassification text in
      url <- get detectionImage "url" ;;
      Ok {| category := Some category;
            department := lookup category DEPARTMENT_MAP;
            confidence := Some 0.85%Q;
            detectedLabels := Some [text];
            processedImageUrl := url |}
  | _ =>
      (* [classification.toLowerCase] is not a function *)
      Throw TypeError
  end.

Definition detectIssueWithAI (imageFile : File) (huggingFaceToken : option string)
    (g : RandomSource) : outcome AIDetectionResult * RandomSource :=
  match detectIssueWithAI_try imageFile huggingFaceToken with
  | Ok result => (Ok result, g)
  | Throw error =>
      let '(fallback, g) := mockAIDetection imageFile g in
      (Ok fallback, g)
  end.

End WithClient.
End GradioClientService.

(** ** The specification's wording of the properties examined below *)

(** The prefixes section 4.1 lists as recognised by the URL rewriting. *)
Definition prefixes_listed_by_spec : list string :=
  ["http"; "/file="; "/gradio_api/file="; "/gradio_api/file/"; "/tmp/"; "tmp/"].

(** The prefixes [toAbsoluteGradioFileUrl] tests for. *)
Definition prefixes_tested_by_code : list string :=
  prefixes_listed_by_spec ++ ["file="; "file/"].

Definition begins_with_none (prefixes : list string) (rel : string) : bool :=
  forallb (fun p => negb (startsWith rel p)) prefixes.

(** "a root-relative [/file=] path on the service's base origin, inserting
    a leading slash when the path lacks one" *)
Definition root_relative_file_url (rel : string) : string :=
  SPACE_ORIGIN ++ "/file=" ++ (if startsWith rel "/" then "" else "/") ++ rel.

(** "the first successfully extracted URL" of a sequence of attempts *)
Definition first_success (attempts : list string) : string :=
  hd "" (filter nonempty attempts).

(** The values probed for a URL, in order: the elements of an array; for
    an object the fields [url], [path], [name], [value], then the same
    fields of its [data] property.  [data_value] tells whether [data.value]
    belongs to the list, as the specification's "nested data.* equivalents"
    has it. *)
Definition probing_order (data_value : bool) (output : json) : list jsval :=
  match output with
  | JArr items => map Some items
  | JObj obj =>
      let data := lookup "data" obj in
      [ lookup "url" obj; lookup "path" obj; lookup "name" obj; lookup "value" obj;
        get_optional data "url"; get_optional data "path"; get_optional data "name" ]
      ++ (if data_value then [get_optional data "value"] else [])
  | _ => []
  end.

(** A text contains a word case-insensitively when some segment of it
    equals the word up to the case of its letters. *)
Definition contains_ignoring_case (text word : string) : Prop :=
  exists before segment after,
    text = before ++ segment ++ after /\ toLowerCase segment = toLowerCase word.

(** The mock classifier consumes at most two draws. *)
Definition same_draws (g1 g2 : RandomSource) : Prop :=
  sample (draws g1 (cursor g1)) = sample (draws g2 (cursor g2)) /\
  sample (draws g1 (S (cursor g1))) = sample (draws g2 (S (cursor g2))).

(** A stubbed step fails when [fetch] rejects or answers outside 2xx. *)
Definition step_fails (o : outcome Response) : bool :=
  match o with
  | Throw _ => true
  | Ok r => negb (ok r)
  end.

(** ** The failures of the remote service that the specification lists *)

(** The three requests of the bridge, as [uploadImageToGradio] and
    [getGradioResult] send them. *)
Definition upload_request (imageFile : File) (token : option string) : Request :=
  {| url := "https://utkarsh-23-pothole-yolo.hf.space/gradio_api/upload";
     method := "POST";
     headers := authorization token;
     payload := FormData [("files", imageFile)] |}.

Definition predict_request (path : string) (token : option string) : Request :=
  {| url := "https://utkarsh-23-pothole-yolo.hf.space/gradio_api/call/predict";
     method := "POST";
     headers := ("Content-Type", "application/json") :: authorization token;
     payload :=
       JsonBody
         (JObj [("data",
            JArr [JObj [("path", JStr path);
                        ("url", JStr (toAbsoluteGradioFileUrl path));
                        ("meta", JObj [("_type", JStr "gradio.FileData")])]])]) |}.

Definition result_request `{Platform} (eventId : json) (token : option string)
  : Request :=
  {| url := SPACE_ORIGIN ++ "/gradio_api/call/predict/" ++ template eventId;
     method := "GET";
     headers := authorization token;
     payload := NoBody |}.

Section ListedFailures.
Context `{Platform}.
Variable fetch : Fetch.
Variable imageFile : File.
Variable token : option string.

(** The upload route answers with JSON from which a file path is taken. *)
Definition upload_answers (path : string) : Prop :=
  exists (response : Response) (mime text : string) (uploadData : json),
    fetch (upload_request imageFile token) = Ok response
    /\ ok response = true
    /\ contentType response = Some mime
    /\ includes mime "application/json" = true
    /\ Response_text response = Ok text
    /\ JSON_parse text = Some uploadData
    /\ AiService.uploaded_filePath uploadData = Ok (Some (JStr path))
    /\ nonempty path = true.

(** The predict route answers with JSON; [eventId] is its [event_id], or
    [null] when it has none. *)
Definition predict_answers (eventId : json) : Prop :=
  exists (path : string) (response : Response) (text : string)
         (predictData : json) (event_id : jsval),
    upload_answers path
    /\ fetch (predict_request path token) = Ok response
    /\ ok response = true
    /\ Response_text response = Ok text
    /\ JSON_parse text = Some predictData
    /\ get (Some predictData) "event_id" = Ok event_id
    /\ eventId = match event_id with
                 | Some id => id
                 | None => JNull
                 end.

(** Network error, response outside 2xx, reply that does not parse, missing
    event id, stream broken or exhausted without a URL: at each step of the
    exchange where they can occur. *)
Inductive listed_failure : Prop :=
| upload_unreachable (e : exn) :
    fetch (upload_request imageFile token) = Throw e -> listed_failure
| upload_refused (response : Response) :
    fetch (upload_request imageFile token) = Ok response ->
    ok response = false -> listed_failure
| upload_reply_unparsable (response : Response) (mime text : string) :
    fetch (upload_request imageFile token) = Ok response ->
    ok response = true ->
    contentType response = Some mime ->
    includes mime "application/json" = true ->
    Response_text response = Ok text ->
    JSON_parse text = None -> listed_failure
| predict_unreachable (path : string) (e : exn) :
    upload_answers path ->
    fetch (predict_request path token) = Throw e -> listed_failure
| predict_refused (path : string) (response : Response) :
    upload_answers path ->
    fetch (predict_request path token) = Ok response ->
    ok response = false -> listed_failure
| predict_reply_unparsable (path : string) (response : Response) (text : string) :
    upload_answers path ->
    fetch (predict_request path token) = Ok response ->
    ok response = true ->
    Response_text response = Ok text ->
    JSON_parse text = None -> listed_failure
| event_id_missing (eventId : json) :
    predict_answers eventId ->
    truthy (Some eventId) = false -> listed_failure
| result_unreachable (eventId : json) (e : exn) :
    predict_answers eventId ->
    truthy (Some eventId) = true ->
    fetch (result_request eventId token) = Throw e -> listed_failure
| result_refused (eventId : json) (response : Response) :
    predict_answers eventId ->
    truthy (Some eventId) = true ->
    fetch (result_request eventId token) = Ok response ->
    ok response = false -> listed_failure
| stream_broken (eventId : json) (response : Response) (reader : ReadableStream)
    (e : exn) :
    predict_answers eventId ->
    truthy (Some eventId) = true ->
    fetch (result_request eventId token) = Ok response ->
    ok response = true ->
    body response = Some reader ->
    AiService.read_frames reader "" "" = Throw e -> listed_failure
| stream_exhausted (eventId : json) (response : Response) (reader : ReadableStream)
    (fullData : string) :
    predict_answers eventId ->
    truthy (Some eventId) = true ->
    fetch (result_request eventId token) = Ok response ->
    ok response = true ->
    body response = Some reader ->
    AiService.read_frames reader "" "" = Ok ("", fullData) -> listed_failure.

End ListedFailures.

(** ** Stubs of the platform and of the remote service, for the examples *)

Definition nl : string := String newline EmptyString.
Definition dq : string := String (ascii_of_nat 34) EmptyString.

(** [["/tmp/gradio/in.jpg"]], the reply of the upload route *)
Definition upload_reply_text : string := "[" ++ dq ++ "/tmp/gradio/in.jpg" ++ dq ++ "]".
Definition upload_reply : json := JArr [JStr "/tmp/gradio/in.jpg"].

(** [{"event_id":"ev1"}], the reply of the predict route *)
Definition predict_reply_text : string :=
  "{" ++ dq ++ "event_id" ++ dq ++ ":" ++ dq ++ "ev1" ++ dq ++ "}".
Definition predict_reply : json := JObj [("event_id", JStr "ev1")].

(** [{"output":{"data":[{"path":"/tmp/out.jpg"}]}}] *)
Definition path_frame_text : string :=
  "{" ++ dq ++ "output" ++ dq ++ ":{" ++ dq ++ "data" ++ dq ++ ":[{"
      ++ dq ++ "path" ++ dq ++ ":" ++ dq ++ "/tmp/out.jpg" ++ dq ++ "}]}}".
Definition path_frame : json :=
  JObj [("output", JObj [("data", JArr [JObj [("path", JStr "/tmp/out.jpg")]])])].

(** [{"data":{"value":"/tmp/annotated.png"}}] *)
Definition data_value_frame : json :=
  JObj [("data", JObj [("value", JStr "/tmp/annotated.png")])].

(** A [JSON.parse] that knows the texts above and [null], and rejects every
    other text. *)
Definition stub_platform : Platform :=
  {| JSON_parse := fun text =>
       lookup text [ (upload_reply_text, upload_reply);
                     (predict_reply_text, predict_reply);
                     (path_frame_text, path_frame);
                     ("null", JNull) ];
     ToString := fun _ => "[object Object]";
     coerced_gt_zero := fun _ => false |}.

Definition reply (mime : string) (stream : ReadableStream) : Response :=
  {| ok := true; status := 200; statusText := "OK";
     contentType := Some mime; body := Some stream |}.

(** A service whose upload and predict routes answer as above and whose
    result route answers with the given event stream. *)
Definition stub_service (events : ReadableStream) : Fetch :=
  fun request =>
    if String.eqb (url request) (SPACE_ORIGIN ++ "/gradio_api/upload") then
      Ok (reply "application/json" (StreamChunk upload_reply_text StreamDone))
    else if String.eqb (url request) (SPACE_ORIGIN ++ "/gradio_api/call/predict") then
      Ok (reply "application/json" (StreamChunk predict_reply_text StreamDone))
    else Ok (reply "text/event-stream" events).

(** A service that cannot be reached: every [fetch] rejects. *)
Definition unreachable_service : Fetch := fun _ => Throw TypeError.

(** Two frames, one per chunk: a heartbeat with no URL, then the frame with
    the path. *)
Definition heartbeat_then_path : ReadableStream :=
  StreamChunk ("event: heartbeat" ++ nl ++ "data: null" ++ nl ++ nl)
    (StreamChunk ("event: complete" ++ nl ++ "data: " ++ path_frame_text ++ nl ++ nl)
       StreamDone).

(** A frame that is not JSON, then the frame with the path. *)
Definition garbled_then_path : ReadableStream :=
  StreamChunk ("data: {" ++ dq ++ "output" ++ nl)
    (StreamChunk ("data: " ++ path_frame_text ++ nl) StreamDone).

Definition photo : File :=
  {| name := "photo.jpg"; type := "image/jpeg"; content := "" |}.

Definition pothole_test : File :=
  {| name := "pothole_test.jpg"; type := "image/jpeg"; content := "" |}.

(** A generator that cycles through 0, 1/4, 1/2, 3/4. *)
Definition cycle_draws (n : nat) : unit_interval :=
  match Nat.modulo n 4 with
  | 0 => {| sample := 0; sample_range := eq_refl |}
  | 1 => {| sample := 1 # 4; sample_range := eq_refl |}
  | 2 => {| sample := 1 # 2; sample_range := eq_refl |}
  | _ => {| sample := 3 # 4; sample_range := eq_refl |}
  end.

Definition cycle_source : RandomSource := {| draws := cycle_draws; cursor := 0 |}.

(** ** Event streams with two data frames *)

Fixpoint single_line (s : string) : bool :=
  match s with
  | EmptyString => true
  | String c s' => negb (Ascii.eqb c newline) && single_line s'
  end.

(** A server-sent event carrying [payload]: [data: <payload>] and an empty
    line. *)
Definition data_frame (payload : string) : string :=
  "data: " ++ payload ++ nl ++ nl.

(** The two ways a reader can deliver two frames. *)
Definition two_frames_two_chunks (payload1 payload2 : string)
    (rest : ReadableStream) : ReadableStream :=
  StreamChunk (data_frame payload1) (StreamChunk (data_frame payload2) rest).

Definition two_frames_one_chunk (payload1 payload2 : string)
    (rest : ReadableStream) : ReadableStream :=
  StreamChunk (data_frame payload1 ++ data_frame payload2) rest.

(** ** [processAIResponse] of [aiService.ts] *)

(** [interface HuggingFacePrediction] *)
Record HuggingFacePrediction : Type := {
  label : string;
  score : Q
}.

(** The argument of [processAIResponse] at its declared type
    [HuggingFacePrediction[] | unknown]: an array of predictions, or a value
    that is not an array.  An array whose elements are not predictions is
    outside the embedding. *)
Inductive ApiResponse : Type :=
| NotAnArray
| PredictionArray (predictions : list HuggingFacePrediction).

(** [Object.entries(CATEGORY_KEYWORDS)], in insertion order. *)
Definition CATEGORY_KEYWORDS : list (string * list string) :=
  [ ("pothole", ["pothole"; "crack"; "road damage"; "asphalt"; "pavement"]);
    ("garbage", ["garbage"; "trash"; "litter"; "waste"; "rubbish"; "dump"]);
    ("streetlight", ["streetlight"; "lamp"; "light pole"; "lighting"; "street lamp"]);
    ("water", ["water"; "leak"; "pipe"; "flooding"]);
    ("drainage", ["drain"; "sewer"; "gutter"; "manhole"]) ].

(** [label.includes(keyword) || keyword.includes(label)] *)
Definition label_matches (lowered keyword : string) : bool :=
  includes lowered keyword || includes keyword lowered.

(** [(p) => p.label.toLowerCase() === label] *)
Definition has_label (lowered : string) (p : HuggingFacePrediction) : bool :=
  String.eqb (toLowerCase (label p)) lowered.

(** The body of the innermost loop, on the pair of [matchedCategory] and
    [maxConfidence]. *)
Definition consider (topPredictions : list HuggingFacePrediction)
    (category lowered keyword : string) (state : string * Q) : string * Q :=
  if label_matches lowered keyword then
    match find (has_label lowered) topPredictions with
    | Some prediction =>
        if negb (Qle_bool (score prediction) (snd state))
        then (category, score prediction)
        else state
    | None => state
    end
  else state.

Definition processAIResponse (apiResponse : ApiResponse) : AIDetectionResult :=
  match apiResponse with
  | PredictionArray (first :: others) =>
      let topPredictions := firstn 5 (first :: others) in
      let detectedLabels := map (fun p => toLowerCase (label p)) topPredictions in
      let matched :=
        fold_left
          (fun state entry =>
             let '(category, keywords) := entry in
             fold_left
               (fun state lowered =>
                  fold_left
                    (fun state keyword =>
                       consider topPredictions category lowered keyword state)
                    keywords state)
               detectedLabels state)
          CATEGORY_KEYWORDS ("other", 0%Q) in
      {| category := Some (fst matched);
         department := lookup (fst matched) DEPARTMENT_MAP;
         confidence := Some (snd matched);
         detectedLabels := Some detectedLabels;
         processedImageUrl := None |}
  | _ =>
      {| category := Some "other";
         department := lookup "other" DEPARTMENT_MAP;
         confidence := Some 0%Q;
         detectedLabels := None;
         processedImageUrl := None |}
  end.

(** The pair kept by the loops is either untouched, or backed by one of the
    first five predictions. *)
Definition backed_by (topPredictions : list HuggingFacePrediction)
    (state : string * Q) : Prop :=
  (state = ("other", 0%Q))
  \/ ((0 < snd state)%Q
      /\ exists keywords keyword p,
           In (fst state, keywords) CATEGORY_KEYWORDS
           /\ In keyword keywords
           /\ In p topPredictions
           /\ label_matches (toLowerCase (label p)) keyword = true
           /\ score p = snd state).

(** ** [fileToBase64] of [aiService.ts] *)

(** [s.split(sep)] for a separator of one character *)
Fixpoint split_on (sep : ascii) (s : string) : list string :=
  match s with
  | EmptyString => [EmptyString]
  | String c s' =>
      if Ascii.eqb c sep then EmptyString :: split_on sep s'
      else match split_on sep s' with
           | [] => [String c EmptyString]
           | part :: parts => String c part :: parts
           end
  end.

Definition comma : ascii := ascii_of_nat 44.

Section WithFileReader.
(** [reader.readAsDataURL(file)]: the data URL left in [reader.result], or
    [None] when the read fails and the [error] event fires. *)
Variable readAsDataURL : File -> option string.

Definition fileToBase64 (file : File) : outcome string :=
  match readAsDataURL file with
  | None => Throw Rejection
  | Some base64String =>
      let base64Data :=
        match nth_error (split_on comma base64String) 1 with
        | Some part => if nonempty part then part else base64String
        | None => base64String
        end in
      Ok base64Data
  end.

End WithFileReader.

(** ** [handleImageChange] of [pages/UserDashboard.tsx] *)

Inductive Toast : Type :=
| toast_loading (message : string)
| toast_success (message : string)
| toast_error (message : string).

(** The state of the report form that the handler writes, and the toasts
    it has shown, oldest first.  The preview, which a [FileReader] callback
    sets on its own, is not part of it. *)
Record ReportForm : Type := {
  image : option File;
  detectedCategory : option string;
  detectedDepartment : option string;
  aiConfidence : Z;
  isAnalyzingImage : bool;
  toasts : list Toast
}.

(** [`${n}`] for an integer *)
Definition show_Z (n : Z) : string :=
  match n with
  | Z0 => "0"
  | Zpos p => show_N (Npos p)
  | Zneg p => "-" ++ show_N (Npos p)
  end.

(** What the page imports under the name [detectIssueWithAI]: a function
    of the file and the token that may use the random source. *)
Definition Detection : Type :=
  File -> option string -> RandomSource -> outcome AIDetectionResult * RandomSource.

Section WithService.
(** [import { detectIssueWithAI } from "@/services/aiService"]; the two
    services of the repository export a function of that name. *)
Variable detectIssueWithAI : Detection.
(** [import.meta.env.VITE_HUGGING_FACE_TOKEN] *)
Variable hfToken : option string.

Definition handleImageChange (file : option File) (form : ReportForm)
    (g : RandomSource) : ReportForm * RandomSource :=
  match file with
  | None => (form, g)
  | Some file =>
      let loading := app (toasts form) [toast_loading "Analyzing image with AI..."] in
      let '(detection, g) := detectIssueWithAI file hfToken g in
      match detection with
      | Ok result =>
          let '(r, g) := Math_random g in
          let confidence := (Math_floor (r * 20) + 75)%Z in
          ({| image := Some file;
              detectedCategory := category result;
              detectedDepartment := department result;
              aiConfidence := confidence;
              isAnalyzingImage := false;
              toasts :=
                app loading
                  [toast_success ("AI detected: " ++ key_of (category result)
                                    ++ " (" ++ show_Z confidence ++ "% confidence)")] |},
           g)
      | Throw error =>
          ({| image := Some file;
              detectedCategory := detectedCategory form;
              detectedDepartment := detectedDepartment form;
              aiConfidence := aiConfidence form;
              isAnalyzingImage := false;
              toasts :=
                app loading
                  [toast_error "AI analysis failed, but you can still submit"] |},
           g)
      end
  end.

End WithService.

(** A comma does not occur in the string. *)
Fixpoint comma_free (s : string) : bool :=
  match s with
  | EmptyString => true
  | String c s' => negb (Ascii.eqb c comma) && comma_free s'
  end.

(** ** What the scanning loop of [getGradioResult] keeps of a stream *)

Section ScannedUrl.
Context `{Platform}.

(** The value of [processedImageUrl] when the [while] loop is left, the
    only part of its state that [getGradioResult] returns. *)
Definition scanned_url (reader : ReadableStream) : outcome string :=
  match AiService.read_frames reader "" "" with
  | Ok scanned => Ok (fst scanned)
  | Throw e => Throw e
  end.

End ScannedUrl.

(** ** Notions used to state further properties of the bridge *)

(** The string begins with the letters [http] or with [data:image/]; this
    is a test on its first characters, not on its being a URL:
    [httpdocs/a.png] passes it. *)
Definition http_or_data_image (u : string) : bool :=
  startsWith u "http" || startsWith u "data:image/".

(** A value holds a string for [extractUrlFromOutput] when a non-empty
    string sits at a position the extraction reaches: the value itself, an
    element of an array, or one of the probed fields of an object. *)
Inductive holds_string : jsval -> Prop :=
| holds_here (s : string) :
    nonempty s = true -> holds_string (Some (JStr s))
| holds_in_array (items : list json) (x : json) :
    In x items -> holds_string (Some x) -> holds_string (Some (JArr items))
| holds_in_object (obj : list (string * json)) (x : jsval) :
    In x (probing_order false (JObj obj)) -> holds_string x ->
    holds_string (Some (JObj obj)).

(** The chunks a reader delivers before the stream ends or breaks. *)
Fixpoint stream_chunks (reader : ReadableStream) : list string :=
  match reader with
  | StreamChunk chunk rest => chunk :: stream_chunks rest
  | _ => []
  end.

(** The places of a frame where a URL is looked for: the frame itself when
    it is an array, its [output.data], its [data] when that is an array,
    and its [output.value]. *)
Definition frame_probes (jsonData : json) : list jsval :=
  let output := get_optional (Some jsonData) "output" in
  let data := get_optional (Some jsonData) "data" in
  [ if isArray (Some jsonData) then Some jsonData else None;
    get_optional output "data";
    if isArray data then data else None;
    get_optional output "value" ].

(** A frame holds an extractable URL when a non-empty string sits at a
    position reached from one of these places.  This is a condition on the
    JSON value alone. *)
Definition frame_holds_url (jsonData : json) : Prop :=
  exists x, In x (frame_probes jsonData) /\ holds_string x.

(** A line of the stream that is a data frame whose payload parses to a
    value holding an extractable URL. *)
Definition line_holds_url `{Platform} (line : string) : Prop :=
  startsWith line "data: " = true
  /\ exists jsonData,
       JSON_parse (substring_from 6 line) = Some jsonData
       /\ frame_holds_url jsonData.

(** The requests of one detection, given the answers of the service: the
    upload of the image; the predict call for the path the upload answered
    with; the result request for the event id the predict call answered
    with, when that id is truthy.  Each is one request, with its URL,
    method, headers and body. *)
Definition bridge_request `{Platform} (fetch : Fetch) (imageFile : File)
    (token : option string) (request : Request) : Prop :=
  request = upload_request imageFile token
  \/ (exists path,
        upload_answers fetch imageFile token path
        /\ request = predict_request path token)
  \/ (exists eventId,
        predict_answers fetch imageFile token eventId
        /\ truthy (Some eventId) = true
        /\ request = result_request eventId token).

(** A service that answers like [stub_service] on the origin of the Space
    and differently everywhere else. *)
Definition stub_service_elsewhere_down (events : ReadableStream) : Fetch :=
  fun request =>
    if startsWith (url request) SPACE_ORIGIN then stub_service events request
    else Throw TypeError.

(** The values of a frame that are neither arrays nor objects. *)
Definition is_primitive (v : json) : bool :=
  match v with
  | JArr _ => false
  | JObj _ => false
  | _ => true
  end.

(** [{"msg":"heartbeat"}], a frame that parses and holds no URL *)
Definition heartbeat_frame_text : string :=
  "{" ++ dq ++ "msg" ++ dq ++ ":" ++ dq ++ "heartbeat" ++ dq ++ "}".
Definition heartbeat_frame : json := JObj [("msg", JStr "heartbeat")].

(** [stub_platform], with a [JSON.parse] that also knows the heartbeat. *)
Definition stub_platform_with_heartbeat : Platform :=
  {| JSON_parse := fun text =>
       if String.eqb text heartbeat_frame_text then Some heartbeat_frame
       else JSON_parse (Platform := stub_platform) text;
     ToString := ToString (Platform := stub_platform);
     coerced_gt_zero := coerced_gt_zero (Platform := stub_platform) |}.

(** The text of [path_frame_text], cut in two inside the frame. *)
Definition path_frame_head : string :=
  "{" ++ dq ++ "output" ++ dq ++ ":{" ++ dq ++ "data" ++ dq ++ ":[{" ++ dq ++ "pa".
Definition path_frame_tail : string :=
  "th" ++ dq ++ ":" ++ dq ++ "/tmp/out.jpg" ++ dq ++ "}]}}".

(** The keywords [extractCategoryFromClassification] looks for. *)
Definition classification_keywords : list string :=
  [ "pothole"; "road"; "road maintenance";
    "garbage"; "waste"; "sanitation"; "trash";
    "light"; "lamp"; "public works" ].

(* ================================================================== *)
(** * Theorems *)
(* ================================================================== *)

(** ** Strings *)

Lemma startsWith_app (p s : string) : startsWith (p ++ s) p = true.
Proof.
  induction p as [|a p IH]; simpl; [reflexivity|].
  now rewrite Ascii.eqb_refl, IH.
Qed.

Lemma startsWith_nonempty (s p : string) :
  nonempty p = true -> startsWith s p = true -> nonempty s = true.
Proof.
  destruct p as [|a p]; simpl; [discriminate|].
  destruct s; [discriminate | reflexivity].
Qed.

Lemma includes_unfold (s needle : string) :
  includes s needle
  = startsWith s needle
    || match s with
       | EmptyString => false
       | String _ s' => includes s' needle
       end.
Proof. destruct s; reflexivity. Qed.

Lemma includes_app (before word after : string) :
  includes (before ++ word ++ after) word = true.
Proof.
  induction before as [|c before IH]; simpl.
  - rewrite includes_unfold, startsWith_app. reflexivity.
  - rewrite IH. apply orb_true_r.
Qed.

Lemma toLowerCase_app (s t : string) :
  toLowerCase (s ++ t) = toLowerCase s ++ toLowerCase t.
Proof.
  induction s as [|c s IH]; simpl; [reflexivity | now rewrite IH].
Qed.

(** ** URL rewriting *)

(** C6.  Every path [/tmp/<x>] (whatever the suffix [<x>], empty or not) is
    rewritten to exactly [<base>/file=/tmp/<x>], [<base>] being the origin
    of the service. *)
Theorem tmp_path_is_served_through_file_route (x : string) :
  toAbsoluteGradioFileUrl ("/tmp/" ++ x) = SPACE_ORIGIN ++ "/file=/tmp/" ++ x.
Proof. reflexivity. Qed.

(** C4, as stated, fails: [file=abc] is not empty and begins with none of
    the six prefixes the claim lists, yet it is not rewritten to
    [<base>/file=/file=abc]; the code has a branch for [file=] of its
    own. *)
Lemma unlisted_prefix_counterexample :
  ~ (nonempty "file=abc" = true ->
     begins_with_none prefixes_listed_by_spec "file=abc" = true ->
     toAbsoluteGradioFileUrl "file=abc" = root_relative_file_url "file=abc").
Proof.
  intros claim. specialize (claim eq_refl eq_refl). discriminate claim.
Qed.

(** C4, amended.  A non-empty path that begins with none of [http],
    [/file=], [/gradio_api/file=], [/gradio_api/file/], [/tmp/], [tmp/],
    [file=], [file/] is treated as a root-relative [/file=] path on the
    origin of the service: the result is [<base>/file=<path>], with a slash
    inserted when the path does not start with one. *)
Theorem unrecognized_prefix_defaults_to_file_route (rel : string) :
  nonempty rel = true ->
  begins_with_none prefixes_tested_by_code rel = true ->
  toAbsoluteGradioFileUrl rel = root_relative_file_url rel.
Proof.
  intros Hne Hnone.
  unfold begins_with_none, prefixes_tested_by_code, prefixes_listed_by_spec in Hnone.
  cbn [forallb app] in Hnone.
  repeat (apply andb_prop in Hnone; destruct Hnone as [?H Hnone]).
  repeat match goal with
         | H : negb _ = true |- _ => apply negb_true_iff in H
         end.
  unfold toAbsoluteGradioFileUrl, root_relative_file_url.
  rewrite Hne. cbn [negb].
  repeat match goal with
         | H : startsWith rel _ = false |- _ => rewrite H; clear H
         end.
  destruct (startsWith rel "/"); reflexivity.
Qed.

Lemma unrecognized_prefix_defaults_to_file_route_witness :
  toAbsoluteGradioFileUrl "uploads/a.png"
  = "https://utkarsh-23-pothole-yolo.hf.space/file=/uploads/a.png".
Proof.
  exact (unrecognized_prefix_defaults_to_file_route "uploads/a.png" eq_refl eq_refl).
Defined.

(** ** URL extraction from a stream frame *)

Lemma first_extracted_ext (f g : jsval -> string) (xs : list jsval) :
  (forall x, In x xs -> f x = g x) ->
  first_extracted f xs = first_extracted g xs.
Proof.
  induction xs as [|x xs IH]; intros Hfg; simpl; [reflexivity|].
  rewrite (Hfg x (or_introl eq_refl)).
  destruct (nonempty (g x)); [reflexivity|].
  apply IH. intros y Hy. apply Hfg. now right.
Qed.

Lemma first_extracted_is_first_success (f : jsval -> string) (xs : list jsval) :
  first_extracted f xs = first_success (map f xs).
Proof.
  unfold first_success.
  induction xs as [|x xs IH]; simpl; [reflexivity|].
  destruct (nonempty (f x)); [reflexivity | exact IH].
Qed.

Lemma first_extracted_filter (f : jsval -> string) (keep : jsval -> bool)
    (xs : list jsval) :
  (forall x, keep x = false -> f x = "") ->
  first_extracted f (filter keep xs) = first_extracted f xs.
Proof.
  intros Hdrop.
  induction xs as [|x xs IH]; simpl; [reflexivity|].
  destruct (keep x) eqn:K; simpl.
  - now rewrite IH.
  - now rewrite (Hdrop x K), IH.
Qed.

Lemma height_item (items : list json) (x : json) :
  In x items -> height x < height (JArr items).
Proof.
  simpl. induction items as [|y items IH]; simpl; [contradiction|].
  intros [->|Hin]; [lia|]. specialize (IH Hin). lia.
Qed.

Lemma height_field (obj : list (string * json)) (k : string) (v : json) :
  lookup k obj = Some v -> height v < height (JObj obj).
Proof.
  simpl. induction obj as [|[k' w] obj IH]; simpl; [discriminate|].
  destruct (String.eqb k k').
  - intros [= ->]. lia.
  - intros Hl. specialize (IH Hl). lia.
Qed.

Lemma height_lookup (obj : list (string * json)) (k : string) :
  jsheight (lookup k obj) < height (JObj obj).
Proof.
  destruct (lookup k obj) as [v|] eqn:E.
  - exact (height_field obj k v E).
  - simpl. lia.
Qed.

Lemma height_nested (obj : list (string * json)) (k : string) :
  jsheight (get_optional (lookup "data" obj) k) < height (JObj obj).
Proof.
  destruct (lookup "data" obj) as [[| | | | |fields]|] eqn:E; try (simpl; lia).
  pose proof (height_field obj "data" _ E) as Hd.
  pose proof (height_lookup fields k) as Hk.
  cbn [get_optional]. lia.
Qed.

(** Every probed value lies strictly inside the value it is probed from. *)
Lemma height_probed (data_value : bool) (output : json) (x : jsval) :
  In x (probing_order data_value output) -> jsheight x < height output.
Proof.
  destruct output as [| | | |items|obj]; try contradiction.
  - cbn [probing_order]. intros Hin. apply in_map_iff in Hin as [j [<- Hj]].
    exact (height_item items j Hj).
  - cbn [probing_order]. intros Hin.
    apply in_app_or in Hin as [Hin|Hin].
    + repeat (destruct Hin as [<-|Hin];
              [first [apply height_lookup | apply height_nested]|]).
      contradiction.
    + destruct data_value; [|contradiction].
      destruct Hin as [<-|[]]. apply height_nested.
Qed.

Lemma extractUrlFromOutput_rec_falsy (fuel : nat) (x : jsval) :
  truthy x = false -> AiService.extractUrlFromOutput_rec fuel x = "".
Proof.
  intros Hx. destruct fuel; simpl; [reflexivity|]. now rewrite Hx.
Qed.

(** Any fuel above the height of the value gives the same result. *)
Lemma extractUrlFromOutput_rec_fuel (fuel1 : nat) :
  forall (fuel2 : nat) (output : jsval),
    jsheight output < fuel1 -> jsheight output < fuel2 ->
    AiService.extractUrlFromOutput_rec fuel1 output
    = AiService.extractUrlFromOutput_rec fuel2 output.
Proof.
  induction fuel1 as [|fuel1 IH]; intros fuel2 output H1 H2; [lia|].
  destruct fuel2 as [|fuel2]; [lia|].
  cbn [AiService.extractUrlFromOutput_rec].
  destruct (negb (truthy output)); [reflexivity|].
  destruct output as [[| | | |items|obj]|]; try reflexivity.
  - apply first_extracted_ext. intros x Hx.
    pose proof (height_probed false (JArr items) x Hx) as Hh.
    cbn [jsheight] in *. apply IH; lia.
  - apply first_extracted_ext. intros x Hx.
    apply filter_In in Hx as [Hx _].
    assert (Hh : jsheight x < height (JObj obj)).
    { apply (height_probed false). cbn [probing_order]. rewrite app_nil_r. exact Hx. }
    cbn [jsheight] in *. apply IH; lia.
Qed.

(** Inside [extractUrlFromOutput], the recursive calls on the probed values
    are calls of [extractUrlFromOutput]. *)
Lemma extractUrlFromOutput_rec_probed (output : json) (x : jsval) :
  In x (probing_order false output) ->
  AiService.extractUrlFromOutput_rec (height output) x
  = AiService.extractUrlFromOutput x.
Proof.
  intros Hx. pose proof (height_probed false output x Hx) as Hh.
  unfold AiService.extractUrlFromOutput.
  apply extractUrlFromOutput_rec_fuel; lia.
Qed.

Lemma extractUrlFromOutput_array (items : list json) :
  AiService.extractUrlFromOutput (Some (JArr items))
  = first_extracted AiService.extractUrlFromOutput (map Some items).
Proof.
  unfold AiService.extractUrlFromOutput at 1.
  cbn [jsheight AiService.extractUrlFromOutput_rec truthy negb].
  apply first_extracted_ext. intros x Hx.
  exact (extractUrlFromOutput_rec_probed (JArr items) x Hx).
Qed.

Lemma extractUrlFromOutput_object (obj : list (string * json)) :
  AiService.extractUrlFromOutput (Some (JObj obj))
  = first_extracted AiService.extractUrlFromOutput
      (filter truthy (probing_order false (JObj obj))).
Proof.
  unfold AiService.extractUrlFromOutput at 1.
  cbn [jsheight AiService.extractUrlFromOutput_rec truthy negb].
  cbn [probing_order]. rewrite app_nil_r.
  apply first_extracted_ext. intros x Hx.
  apply filter_In in Hx as [Hx _].
  apply (extractUrlFromOutput_rec_probed (JObj obj) x).
  cbn [probing_order]. rewrite app_nil_r. exact Hx.
Qed.

Lemma extractUrlFromOutput_falsy (x : jsval) :
  truthy x = false -> AiService.extractUrlFromOutput x = "".
Proof. apply extractUrlFromOutput_rec_falsy. Qed.

(** C3, as stated, fails: a URL that sits only under [data.value] is not
    extracted, although [data.value] is among the "nested data.*
    equivalents" the claim enumerates. *)
Lemma data_value_probe_counterexample :
  AiService.extractUrlFromOutput (Some data_value_frame)
  <> first_success
       (map AiService.extractUrlFromOutput (probing_order true data_value_frame)).
Proof. discriminate. Qed.

(** C3, amended.  [extractUrlFromOutput] probes, in order, the elements of
    an array (recursively), and for an object the fields [url], [path],
    [name], [value] and then [data.url], [data.path], [data.name]
    ([data.value] is not probed); it returns the first successfully
    extracted URL, and the empty string when there is none. *)
Theorem extractUrlFromOutput_probing_order :
  (forall items : list json,
      AiService.extractUrlFromOutput (Some (JArr items))
      = first_success
          (map AiService.extractUrlFromOutput (probing_order false (JArr items))))
  /\
  (forall obj : list (string * json),
      AiService.extractUrlFromOutput (Some (JObj obj))
      = first_success
          (map AiService.extractUrlFromOutput (probing_order false (JObj obj)))).
Proof.
  split.
  - intros items. rewrite extractUrlFromOutput_array.
    apply first_extracted_is_first_success.
  - intros obj. rewrite extractUrlFromOutput_object.
    rewrite first_extracted_filter by apply extractUrlFromOutput_falsy.
    apply first_extracted_is_first_success.
Qed.

(** C7.  A string that begins with [data:image/] is returned by the
    extraction as it is: no prefix rewriting is applied to it. *)
Theorem data_image_url_is_kept (s : string) :
  startsWith s "data:image/" = true ->
  AiService.extractUrlFromOutput (Some (JStr s)) = s.
Proof.
  intros Hs. unfold AiService.extractUrlFromOutput.
  cbn [jsheight height AiService.extractUrlFromOutput_rec truthy].
  rewrite (startsWith_nonempty s "data:image/" eq_refl Hs). cbn [negb].
  now rewrite Hs.
Qed.

Lemma data_image_url_is_kept_witness :
  AiService.extractUrlFromOutput (Some (JStr "data:image/png;base64,iVBORw0KGgo="))
  = "data:image/png;base64,iVBORw0KGgo=".
Proof.
  exact (data_image_url_is_kept "data:image/png;base64,iVBORw0KGgo=" eq_refl).
Defined.

(** ** Keyword classification of the [@gradio/client] service *)

Lemma includes_lowered_segment (text word : string) :
  contains_ignoring_case text word ->
  includes (toLowerCase text) (toLowerCase word) = true.
Proof.
  intros (before & segment & after & -> & Hseg).
  rewrite !toLowerCase_app, Hseg. apply includes_app.
Qed.

(** C5.  A classification text that contains "pothole", in whatever case,
    is classified [pothole], whichever other keyword buckets match as
    well: the pothole keywords are tested before the garbage and the
    streetlight ones, and before the default [other]. *)
Theorem pothole_keyword_takes_precedence (classification : string) :
  contains_ignoring_case classification "pothole" ->
  GradioClientService.extractCategoryFromClassification classification = "pothole".
Proof.
  intros Hc. apply includes_lowered_segment in Hc.
  unfold GradioClientService.extractCategoryFromClassification.
  change (toLowerCase "pothole") with "pothole" in Hc.
  now rewrite Hc.
Qed.

Lemma pothole_keyword_takes_precedence_witness :
  GradioClientService.extractCategoryFromClassification
    "Garbage and a broken street LAMP next to a PotHole - Sanitation"
  = "pothole".
Proof.
  apply pothole_keyword_takes_precedence.
  exists "Garbage and a broken street LAMP next to a ", "PotHole", " - Sanitation".
  split; reflexivity.
Defined.

(** The same at the level of the service: when the client answers with the
    pair of an annotated image and a classification text mentioning a
    pothole, the detection result has category [pothole] and its
    department. *)
Lemma gradio_client_detects_pothole
    (connect : GradioClientService.Connect) (client : GradioClientService.Client)
    (imageFile : File) (token : option string) (g : RandomSource)
    (image : list (string * json)) (text : string) (rest : list json) :
  connect "utkarsh-23/garbage-pothole-detector-app" = Ok client ->
  GradioClientService.predict client "/detect_image_1"
    [("image", {| GradioClientService.blob_parts := [imageFile];
                  GradioClientService.blob_type := type imageFile |})]
  = Ok (Some (JArr (JObj image :: JStr text :: rest))) ->
  contains_ignoring_case text "pothole" ->
  GradioClientService.detectIssueWithAI connect imageFile token g
  = (Ok {| category := Some "pothole";
           department := Some "Road Maintenance";
           confidence := Some 0.85%Q;
           detectedLabels := Some [text];
           processedImageUrl := lookup "url" image |}, g).
Proof.
  intros Hconnect Hpredict Hc. apply includes_lowered_segment in Hc.
  change (toLowerCase "pothole") with "pothole" in Hc.
  unfold GradioClientService.detectIssueWithAI,
    GradioClientService.detectIssueWithAI_try.
  rewrite Hconnect. cbn [bind]. rewrite Hpredict.
  cbn [bind GradioClientService.destructure_pair nth_error fst snd get].
  unfold GradioClientService.extractCategoryFromClassification.
  rewrite Hc. reflexivity.
Qed.

(** ** The mock classifier *)

Lemma sample_bounds (u : unit_interval) : (0 <= sample u /\ sample u < 1)%Q.
Proof.
  destruct u as [q Hq]. cbn [sample].
  apply andb_prop in Hq as [Hlow Hhigh].
  apply Qle_bool_iff in Hlow. apply negb_true_iff in Hhigh.
  split; [exact Hlow|].
  apply Qnot_le_lt. intros Hle. apply Qle_bool_iff in Hle. congruence.
Qed.

Lemma random_index_in_range (r : Q) :
  (0 <= r)%Q -> (r < 1)%Q -> (0 <= Math_floor (r * inject_Z 4) < 4)%Z.
Proof.
  intros Hlow Hhigh. unfold Math_floor. split.
  - change 0%Z with (Qfloor 0). apply Qfloor_resp_le.
    change (inject_Z 4) with 4%Q. lra.
  - rewrite Zlt_Qlt.
    apply Qle_lt_trans with (r * inject_Z 4)%Q; [apply Qfloor_le|].
    change (inject_Z 4) with 4%Q. lra.
Qed.

(** The category drawn at random is one of the four. *)
Lemma random_category (u : unit_interval) :
  exists c,
    index categories
      (Math_floor (sample u * inject_Z (Z.of_nat (List.length categories)))) = Some c
    /\ valid_category c = true
    /\ lookup c DEPARTMENT_MAP <> None.
Proof.
  destruct (sample_bounds u) as [Hlow Hhigh].
  pose proof (random_index_in_range (sample u) Hlow Hhigh) as Hi.
  change (inject_Z (Z.of_nat (List.length categories))) with (inject_Z 4).
  set (i := Math_floor (sample u * inject_Z 4)) in *.
  assert (Hcases : i = 0%Z \/ i = 1%Z \/ i = 2%Z \/ i = 3%Z) by lia.
  destruct Hcases as [-> | [-> | [-> | ->]]];
    eexists; (split; [reflexivity|]); split; (reflexivity || discriminate).
Qed.

Lemma mock_confidence_in_range (u : unit_interval) :
  Qle_bool 0 (0.75 + sample u * 0.2) && Qle_bool (0.75 + sample u * 0.2) 1 = true.
Proof.
  destruct (sample_bounds u) as [Hlow Hhigh].
  apply andb_true_intro. split; apply Qle_bool_iff; lra.
Qed.

(** Whatever the file and the draws, the mock result pairs one of the four
    categories with its department and a confidence in the band. *)
Lemma mockAIDetection_shape (imageFile : File) (g : RandomSource) :
  exists (c : string) (u : unit_interval),
    fst (mockAIDetection imageFile g)
    = {| category := Some c;
         department := lookup c DEPARTMENT_MAP;
         confidence := Some (0.75 + sample u * 0.2)%Q;
         detectedLabels := Some ["mock_" ++ c ++ "_label"];
         processedImageUrl := None |}
    /\ valid_category c = true
    /\ lookup c DEPARTMENT_MAP <> None.
Proof.
  unfold mockAIDetection.
  destruct (includes (toLowerCase (name imageFile)) "pothole"
            || includes (toLowerCase (name imageFile)) "road");
    [exists "pothole", (draws g (cursor g)); repeat split; discriminate|].
  destruct (includes (toLowerCase (name imageFile)) "garbage"
            || includes (toLowerCase (name imageFile)) "trash");
    [exists "garbage", (draws g (cursor g)); repeat split; discriminate|].
  destruct (includes (toLowerCase (name imageFile)) "light"
            || includes (toLowerCase (name imageFile)) "lamp");
    [exists "streetlight", (draws g (cursor g)); repeat split; discriminate|].
  cbn [Math_random draws cursor fst].
  destruct (random_category (draws g (cursor g))) as (c & -> & Hvalid & Hdept).
  exists c, (draws g (S (cursor g))). repeat split; assumption.
Qed.

Lemma mockAIDetection_well_formed (imageFile : File) (g : RandomSource) :
  well_formed (fst (mockAIDetection imageFile g)) = true.
Proof.
  destruct (mockAIDetection_shape imageFile g) as (c & u & -> & Hvalid & Hdept).
  unfold well_formed. cbn [category department confidence processedImageUrl].
  rewrite Hvalid, mock_confidence_in_range.
  destruct (lookup c DEPARTMENT_MAP); [reflexivity | contradiction].
Qed.

(** ** The upload + event-stream service *)

Section Bridge.
Context {P : Platform}.
Variable fetch : Fetch.

(** What [getGradioResult] returns, when it returns: everything but the URL
    is fixed. *)
Lemma getGradioResult_shape (eventId : json) (token : option string)
    (r : AIDetectionResult) :
  AiService.getGradioResult fetch eventId token = Ok r ->
  exists u,
    nonempty u = true /\
    r = {| category := Some "pothole";
           department := Some "Road Maintenance";
           confidence := Some 0.85%Q;
           detectedLabels := Some ["pothole detected by YOLO"];
           processedImageUrl := Some (JStr u) |}.
Proof.
  unfold AiService.getGradioResult, try_catch, bind.
  destruct (fetch _) as [response|e]; [|discriminate].
  destruct (ok response); cbn [negb]; [|discriminate].
  destruct (body response) as [reader|]; [|discriminate].
  destruct (AiService.read_frames reader "" "") as [[u fullData]|e]; [|discriminate].
  cbn [fst]. destruct (nonempty u) eqn:Hu; cbn [negb]; [|discriminate].
  intros [= <-]. exists u. split; [exact Hu | reflexivity].
Qed.

Lemma detectIssueWithAI_try_shape (imageFile : File) (token : option string)
    (r : AIDetectionResult) :
  AiService.detectIssueWithAI_try fetch imageFile token = Ok r ->
  exists eventId,
    AiService.uploadImageToGradio fetch imageFile token = Ok eventId /\
    truthy (Some eventId) = true /\
    AiService.getGradioResult fetch eventId token = Ok r.
Proof.
  unfold AiService.detectIssueWithAI_try, bind.
  destruct (AiService.uploadImageToGradio fetch imageFile token) as [eventId|e];
    [|discriminate].
  destruct (truthy (Some eventId)) eqn:Hid; cbn [negb]; [|discriminate].
  destruct (AiService.getGradioResult fetch eventId token) as [r'|e] eqn:Hr;
    [|discriminate].
  intros [= <-]. exists eventId. auto.
Qed.

Lemma detectIssueWithAI_try_success (imageFile : File) (token : option string)
    (eventId : json) (r : AIDetectionResult) :
  AiService.uploadImageToGradio fetch imageFile token = Ok eventId ->
  truthy (Some eventId) = true ->
  AiService.getGradioResult fetch eventId token = Ok r ->
  AiService.detectIssueWithAI_try fetch imageFile token = Ok r.
Proof.
  intros Hup Hid Hres. unfold AiService.detectIssueWithAI_try, bind.
  now rewrite Hup, Hid, Hres.
Qed.

(** The failures the specification lists make the remote path throw. *)

Lemma upload_answers_continue (imageFile : File) (token : option string)
    (path : string) :
  upload_answers fetch imageFile token path ->
  AiService.uploadImageToGradio fetch imageFile token
  = (predictResp <- fetch (predict_request path token) ;;
     if negb (ok predictResp) then
       errorText <- Response_text predictResp ;;
       Throw (Error ("Gradio API error: " ++ show_N (status predictResp)
                       ++ " " ++ statusText predictResp))
     else
       predictData <- Response_json predictResp ;;
       event_id <- get (Some predictData) "event_id" ;;
       Ok (match event_id with
           | Some id => id
           | None => JNull
           end)).
Proof.
  intros (response & mime & text & uploadData
          & Hfetch & Hok & Hmime & Hjson & Htext & Hparse & Hpath & Hne).
  unfold upload_request in Hfetch.
  unfold AiService.uploadImageToGradio.
  rewrite Hfetch. cbn [bind]. rewrite Hok, Hmime, Hjson. cbn [negb].
  unfold Response_json at 1. rewrite Htext. cbn [bind]. rewrite Hparse.
  cbn [bind]. rewrite Hpath. cbn [bind truthy]. rewrite Hne. cbn [negb].
  unfold predict_request, try_catch.
  match goal with
  | |- match ?c with _ => _ end = _ => destruct c; reflexivity
  end.
Qed.

Lemma predict_answers_event_id (imageFile : File) (token : option string)
    (eventId : json) :
  predict_answers fetch imageFile token eventId ->
  AiService.uploadImageToGradio fetch imageFile token = Ok eventId.
Proof.
  intros (path & response & text & predictData & event_id
          & Hup & Hfetch & Hok & Htext & Hparse & Hget & ->).
  rewrite (upload_answers_continue imageFile token path Hup).
  rewrite Hfetch. cbn [bind]. rewrite Hok. cbn [negb].
  unfold Response_json. rewrite Htext. cbn [bind]. rewrite Hparse.
  cbn [bind]. rewrite Hget. reflexivity.
Qed.

Lemma upload_failure_fails_detection (imageFile : File) (token : option string)
    (e : exn) :
  AiService.uploadImageToGradio fetch imageFile token = Throw e ->
  AiService.detectIssueWithAI_try fetch imageFile token = Throw e.
Proof.
  intros Hup. unfold AiService.detectIssueWithAI_try. now rewrite Hup.
Qed.

Lemma result_failure_fails_detection (imageFile : File) (token : option string)
    (eventId : json) (e : exn) :
  predict_answers fetch imageFile token eventId ->
  truthy (Some eventId) = true ->
  AiService.getGradioResult fetch eventId token = Throw e ->
  AiService.detectIssueWithAI_try fetch imageFile token = Throw e.
Proof.
  intros Hpredict Hid Hres. unfold AiService.detectIssueWithAI_try.
  rewrite (predict_answers_event_id imageFile token eventId Hpredict).
  cbn [bind]. now rewrite Hid, Hres.
Qed.

Lemma listed_failure_throws (imageFile : File) (token : option string) :
  listed_failure fetch imageFile token ->
  exists e, AiService.detectIssueWithAI_try fetch imageFile token = Throw e.
Proof.
  intros [ e Hfetch
         | response Hfetch Hok
         | response mime text Hfetch Hok Hmime Hjson Htext Hparse
         | path e Hup Hfetch
         | path response Hup Hfetch Hok
         | path response text Hup Hfetch Hok Htext Hparse
         | eventId Hpredict Hid
         | eventId e Hpredict Hid Hfetch
         | eventId response Hpredict Hid Hfetch Hok
         | eventId response reader e Hpredict Hid Hfetch Hok Hbody Hread
         | eventId response reader fullData Hpredict Hid Hfetch Hok Hbody Hread ].
  - (* network error on upload *)
    exists e. apply upload_failure_fails_detection.
    unfold upload_request in Hfetch. unfold AiService.uploadImageToGradio.
    now rewrite Hfetch.
  - (* upload answered outside 2xx *)
    eexists. apply upload_failure_fails_detection.
    unfold upload_request in Hfetch. unfold AiService.uploadImageToGradio.
    rewrite Hfetch. cbn [bind]. rewrite Hok. reflexivity.
  - (* upload reply does not parse *)
    exists SyntaxError. apply upload_failure_fails_detection.
    unfold upload_request in Hfetch. unfold AiService.uploadImageToGradio.
    rewrite Hfetch. cbn [bind]. rewrite Hok, Hmime, Hjson. cbn [negb].
    unfold Response_json. rewrite Htext. cbn [bind]. rewrite Hparse. reflexivity.
  - (* network error on predict *)
    exists e. apply upload_failure_fails_detection.
    rewrite (upload_answers_continue imageFile token path Hup).
    now rewrite Hfetch.
  - (* predict answered outside 2xx *)
    destruct (Response_text response) as [errorText|e] eqn:Herror;
      eexists; apply upload_failure_fails_detection;
      rewrite (upload_answers_continue imageFile token path Hup);
      rewrite Hfetch; cbn [bind]; rewrite Hok; cbn [negb];
      rewrite Herror; reflexivity.
  - (* predict reply does not parse *)
    exists SyntaxError. apply upload_failure_fails_detection.
    rewrite (upload_answers_continue imageFile token path Hup).
    rewrite Hfetch. cbn [bind]. rewrite Hok. cbn [negb].
    unfold Response_json. rewrite Htext. cbn [bind]. rewrite Hparse. reflexivity.
  - (* missing event id *)
    eexists. unfold AiService.detectIssueWithAI_try.
    rewrite (predict_answers_event_id imageFile token eventId Hpredict).
    cbn [bind]. rewrite Hid. reflexivity.
  - (* network error on the result route *)
    exists e. apply (result_failure_fails_detection _ _ eventId); try assumption.
    unfold result_request in Hfetch. unfold AiService.getGradioResult.
    now rewrite Hfetch.
  - (* result route answered outside 2xx *)
    eexists. apply (result_failure_fails_detection _ _ eventId); try assumption.
    unfold result_request in Hfetch. unfold AiService.getGradioResult.
    rewrite Hfetch. cbn [bind]. rewrite Hok. reflexivity.
  - (* reading the stream failed *)
    exists e. apply (result_failure_fails_detection _ _ eventId); try assumption.
    unfold result_request in Hfetch. unfold AiService.getGradioResult.
    rewrite Hfetch. cbn [bind]. rewrite Hok, Hbody. cbn [negb].
    now rewrite Hread.
  - (* stream exhausted without a URL *)
    eexists. apply (result_failure_fails_detection _ _ eventId); try assumption.
    unfold result_request in Hfetch. unfold AiService.getGradioResult.
    rewrite Hfetch. cbn [bind]. rewrite Hok, Hbody. cbn [negb].
    rewrite Hread. reflexivity.
Qed.

(** C2.  When the upload succeeds, an event id is obtained and the stream
    yields a URL, the result of [detectIssueWithAI] has category [pothole],
    department "Road Maintenance", confidence 0.85 and the single label
    "pothole detected by YOLO", whatever the image shows; only
    [processedImageUrl] comes from the remote response. *)
Theorem successful_detection_always_reports_pothole
    (imageFile : File) (token : option string) (g : RandomSource)
    (eventId : json) (r : AIDetectionResult) :
  AiService.uploadImageToGradio fetch imageFile token = Ok eventId ->
  truthy (Some eventId) = true ->
  AiService.getGradioResult fetch eventId token = Ok r ->
  AiService.detectIssueWithAI fetch imageFile token g = (Ok r, g)
  /\ category r = Some "pothole"
  /\ department r = Some "Road Maintenance"
  /\ confidence r = Some 0.85%Q
  /\ detectedLabels r = Some ["pothole detected by YOLO"]
  /\ exists u, nonempty u = true /\ processedImageUrl r = Some (JStr u).
Proof.
  intros Hup Hid Hres.
  unfold AiService.detectIssueWithAI.
  rewrite (detectIssueWithAI_try_success imageFile token eventId r Hup Hid Hres).
  apply getGradioResult_shape in Hres as (u & Hu & ->).
  repeat split; try reflexivity. exists u. auto.
Qed.

End Bridge.

Lemma successful_detection_always_reports_pothole_witness :
  AiService.detectIssueWithAI (H := stub_platform) (stub_service heartbeat_then_path)
    pothole_test None cycle_source
  = (Ok {| category := Some "pothole";
           department := Some "Road Maintenance";
           confidence := Some 0.85%Q;
           detectedLabels := Some ["pothole detected by YOLO"];
           processedImageUrl :=
             Some (JStr "https://utkarsh-23-pothole-yolo.hf.space/file=/tmp/out.jpg") |},
     cycle_source).
Proof.
  apply (successful_detection_always_reports_pothole (P := stub_platform)
           (stub_service heartbeat_then_path) pothole_test None cycle_source
           (JStr "ev1")); reflexivity.
Defined.


Lemma failing_steps_fail_detection {P : Platform} (fetch : Fetch)
    (imageFile : File) (token : option string) :
  (forall request, step_fails (fetch request) = true) ->
  exists e, AiService.detectIssueWithAI_try fetch imageFile token = Throw e.
Proof.
  intros Hfail.
  unfold AiService.detectIssueWithAI_try, AiService.uploadImageToGradio,
    try_catch, bind.
  match goal with
  | |- context [fetch ?request] =>
      specialize (Hfail request); destruct (fetch request) as [response|e]
  end.
  - cbn [step_fails] in Hfail. rewrite Hfail. eexists. reflexivity.
  - eexists. reflexivity.
Qed.

(** C10.  With an image named [pothole_test.jpg] and every step of the
    remote service stubbed to fail, [detectIssueWithAI] returns the mock
    result, whose category is [pothole] (the file name contains "pothole")
    and whose department is "Road Maintenance". *)
Theorem pothole_filename_falls_back_to_pothole {P : Platform} (fetch : Fetch)
    (imageFile : File) (token : option string) (g : RandomSource) :
  name imageFile = "pothole_test.jpg" ->
  (forall request, step_fails (fetch request) = true) ->
  exists (r : AIDetectionResult) (g' : RandomSource),
    AiService.detectIssueWithAI fetch imageFile token g = (Ok r, g')
    /\ (r, g') = mockAIDetection imageFile g
    /\ category r = Some "pothole"
    /\ department r = Some "Road Maintenance".
Proof.
  intros Hname Hfail.
  destruct (failing_steps_fail_detection fetch imageFile token Hfail) as [e Htry].
  unfold AiService.detectIssueWithAI. rewrite Htry.
  unfold mockAIDetection. rewrite Hname.
  change (includes (toLowerCase "pothole_test.jpg") "pothole") with true.
  cbn [orb Math_random].
  eexists. eexists. repeat split.
Qed.

Lemma pothole_filename_falls_back_to_pothole_witness :
  exists (r : AIDetectionResult) (g' : RandomSource),
    AiService.detectIssueWithAI (H := stub_platform) unreachable_service
      pothole_test None cycle_source = (Ok r, g')
    /\ (r, g') = mockAIDetection pothole_test cycle_source
    /\ category r = Some "pothole"
    /\ department r = Some "Road Maintenance".
Proof.
  apply (pothole_filename_falls_back_to_pothole (P := stub_platform)
           unreachable_service pothole_test None cycle_source).
  - reflexivity.
  - intros request. reflexivity.
Defined.

(** ** Repeated calls *)

(** C9, as stated, fails: with the service unreachable and a file name that
    matches no heuristic, two successive calls with the same image return
    different results, because the mock classifier draws from
    [Math.random], whose generator moves on between the calls. *)
Lemma repeated_detection_counterexample :
  fst (AiService.detectIssueWithAI (H := stub_platform) unreachable_service
         photo None cycle_source)
  <> fst (AiService.detectIssueWithAI (H := stub_platform) unreachable_service
            photo None
            (snd (AiService.detectIssueWithAI (H := stub_platform)
                    unreachable_service photo None cycle_source))).
Proof. intros Heq. cbv in Heq. discriminate Heq. Qed.

Lemma mockAIDetection_same_draws (imageFile : File) (g1 g2 : RandomSource) :
  same_draws g1 g2 ->
  fst (mockAIDetection imageFile g1) = fst (mockAIDetection imageFile g2).
Proof.
  intros [Hfirst Hsecond]. unfold mockAIDetection.
  destruct (includes (toLowerCase (name imageFile)) "pothole"
            || includes (toLowerCase (name imageFile)) "road");
    [cbn [Math_random fst]; now rewrite Hfirst|].
  destruct (includes (toLowerCase (name imageFile)) "garbage"
            || includes (toLowerCase (name imageFile)) "trash");
    [cbn [Math_random fst]; now rewrite Hfirst|].
  destruct (includes (toLowerCase (name imageFile)) "light"
            || includes (toLowerCase (name imageFile)) "lamp");
    [cbn [Math_random fst]; now rewrite Hfirst|].
  cbn [Math_random fst draws cursor]. now rewrite Hfirst, Hsecond.
Qed.

(** C9, amended.  Two calls of [detectIssueWithAI] with the same image and
    the same deterministic stub of the remote service return identical
    results when the remote path succeeds, and also when it fails provided
    [Math.random] supplies the same draws to both calls: the bridge keeps
    no state of its own across calls, and its result is a function of the
    image, the remote responses and the draws of the random source. *)
Theorem repeated_detection_agrees {P : Platform} (fetch : Fetch)
    (imageFile : File) (token : option string) (g1 g2 : RandomSource) :
  (exists r, AiService.detectIssueWithAI_try fetch imageFile token = Ok r)
  \/ same_draws g1 g2 ->
  fst (AiService.detectIssueWithAI fetch imageFile token g1)
  = fst (AiService.detectIssueWithAI fetch imageFile token g2).
Proof.
  intros Hcase. unfold AiService.detectIssueWithAI.
  destruct (AiService.detectIssueWithAI_try fetch imageFile token) as [r|e];
    [reflexivity|].
  destruct Hcase as [[r Hr]|Hdraws]; [discriminate Hr|].
  pose proof (mockAIDetection_same_draws imageFile g1 g2 Hdraws) as Hmock.
  destruct (mockAIDetection imageFile g1), (mockAIDetection imageFile g2).
  cbn [fst] in *. now rewrite Hmock.
Qed.

Lemma repeated_detection_agrees_witness :
  fst (AiService.detectIssueWithAI (H := stub_platform) unreachable_service
         photo None cycle_source)
  = fst (AiService.detectIssueWithAI (H := stub_platform) unreachable_service
           photo None {| draws := cycle_draws; cursor := 4 |}).
Proof.
  apply (repeated_detection_agrees (P := stub_platform) unreachable_service
           photo None cycle_source {| draws := cycle_draws; cursor := 4 |}).
  right. split; reflexivity.
Defined.

(** ** Scanning an event stream *)

Lemma append_assoc (s t u : string) : (s ++ t) ++ u = s ++ t ++ u.
Proof. induction s as [|c s IH]; simpl; [reflexivity | now rewrite IH]. Qed.

Lemma split_newline_line (line tail : string) :
  single_line line = true ->
  split_newline (line ++ nl ++ tail) = line :: split_newline tail.
Proof.
  induction line as [|c line IH]; intros Hline.
  - reflexivity.
  - cbn [single_line] in Hline. apply andb_prop in Hline as [Hc Hline].
    apply negb_true_iff in Hc.
    change (String c line ++ nl ++ tail) with (String c (line ++ nl ++ tail)).
    cbn [split_newline]. rewrite Hc, (IH Hline). reflexivity.
Qed.

Lemma single_line_data (payload : string) :
  single_line payload = true -> single_line ("data: " ++ payload) = true.
Proof. intros Hp. cbn. exact Hp. Qed.

(** The lines of a chunk that starts with a data frame. *)
Lemma split_newline_data_frame (payload tail : string) :
  single_line payload = true ->
  split_newline (data_frame payload ++ tail)
  = ("data: " ++ payload) :: "" :: split_newline tail.
Proof.
  intros Hp. unfold data_frame.
  replace (("data: " ++ payload ++ nl ++ nl) ++ tail)
    with (("data: " ++ payload) ++ nl ++ ("" ++ nl ++ tail)).
  - rewrite (split_newline_line _ _ (single_line_data payload Hp)).
    now rewrite (split_newline_line "" tail eq_refl).
  - rewrite !append_assoc. reflexivity.
Qed.

Lemma data_frame_alone (payload : string) :
  data_frame payload = data_frame payload ++ "".
Proof.
  unfold data_frame. rewrite !append_assoc. reflexivity.
Qed.

Section Frames.
Context {P : Platform}.

Lemma scan_line_path_frame :
  JSON_parse path_frame_text = Some path_frame ->
  AiService.scan_line "" ("data: " ++ path_frame_text)
  = Some (SPACE_ORIGIN ++ "/file=/tmp/out.jpg").
Proof.
  intros Hparse. unfold AiService.scan_line.
  change (startsWith ("data: " ++ path_frame_text) "data: ") with true.
  change (substring_from 6 ("data: " ++ path_frame_text)) with path_frame_text.
  rewrite Hparse. reflexivity.
Qed.

(** A chunk whose first frame yields nothing is scanned past that frame. *)
Lemma scan_lines_skips_frame (payload tail : string) :
  single_line payload = true ->
  AiService.scan_line "" ("data: " ++ payload) = None ->
  AiService.scan_lines "" (split_newline (data_frame payload ++ tail))
  = AiService.scan_lines "" (split_newline tail).
Proof.
  intros Hp Hnone. rewrite (split_newline_data_frame payload tail Hp).
  cbn [AiService.scan_lines]. rewrite Hnone. reflexivity.
Qed.

Lemma scan_lines_finds_path (tail : string) :
  JSON_parse path_frame_text = Some path_frame ->
  AiService.scan_lines "" (split_newline (data_frame path_frame_text ++ tail))
  = SPACE_ORIGIN ++ "/file=/tmp/out.jpg".
Proof.
  intros Hparse. rewrite (split_newline_data_frame path_frame_text tail eq_refl).
  cbn [AiService.scan_lines]. now rewrite (scan_line_path_frame Hparse).
Qed.

End Frames.

(** ** Examples *)

Example rewrite_known_prefixes :
  map toAbsoluteGradioFileUrl
    [ ""; "https://cdn.example/a.png"; "/file=/tmp/a.png"; "/gradio_api/file=/tmp/a.png";
      "/tmp/a.png"; "tmp/a.png"; "file=/tmp/a.png"; "file/a.png"; "/srv/a.png"; "a.png" ]
  = [ "";
      "https://cdn.example/a.png";
      "https://utkarsh-23-pothole-yolo.hf.space/file=/tmp/a.png";
      "https://utkarsh-23-pothole-yolo.hf.space/gradio_api/file=/tmp/a.png";
      "https://utkarsh-23-pothole-yolo.hf.space/file=/tmp/a.png";
      "https://utkarsh-23-pothole-yolo.hf.space/file=/tmp/a.png";
      "https://utkarsh-23-pothole-yolo.hf.space/file=/tmp/a.png";
      "https://utkarsh-23-pothole-yolo.hf.space/gradio_api/file/a.png";
      "https://utkarsh-23-pothole-yolo.hf.space/file=/srv/a.png";
      "https://utkarsh-23-pothole-yolo.hf.space/file=/a.png" ].
Proof. reflexivity. Qed.

Example extraction_prefers_url_over_path :
  AiService.extractUrlFromOutput
    (Some (JArr [JNull; JNum 0; JStr "";
                 JObj [("path", JStr "/tmp/p.png"); ("url", JStr "/tmp/u.png")]]))
  = "https://utkarsh-23-pothole-yolo.hf.space/file=/tmp/u.png".
Proof. reflexivity. Qed.

Example extraction_ignores_data_value :
  AiService.extractUrlFromOutput (Some data_value_frame) = "".
Proof. reflexivity. Qed.

Example lines_of_a_chunk :
  split_newline ("event: complete" ++ nl ++ "data: null" ++ nl ++ nl)
  = ["event: complete"; "data: null"; ""; ""].
Proof. reflexivity. Qed.

Example detection_through_the_stub :
  AiService.detectIssueWithAI (H := stub_platform) (stub_service heartbeat_then_path)
    photo None cycle_source
  = (Ok {| category := Some "pothole";
           department := Some "Road Maintenance";
           confidence := Some 0.85%Q;
           detectedLabels := Some ["pothole detected by YOLO"];
           processedImageUrl :=
             Some (JStr "https://utkarsh-23-pothole-yolo.hf.space/file=/tmp/out.jpg") |},
     cycle_source).
Proof. reflexivity. Qed.

Example fallback_when_unreachable :
  AiService.detectIssueWithAI (H := stub_platform) unreachable_service
    photo None cycle_source
  = (Ok {| category := Some "pothole";
           department := Some "Road Maintenance";
           confidence := Some (0.75 + (1 # 4) * 0.2)%Q;
           detectedLabels := Some ["mock_pothole_label"];
           processedImageUrl := None |},
     {| draws := cycle_draws; cursor := 2 |}).
Proof. reflexivity. Qed.

Example unreachable_is_a_listed_failure :
  listed_failure (H := stub_platform) unreachable_service photo None.
Proof. apply (upload_unreachable _ _ _ TypeError). reflexivity. Qed.

Example stub_predict_answers :
  predict_answers (H := stub_platform) (stub_service StreamDone) photo None (JStr "ev1").
Proof.
  exists "/tmp/gradio/in.jpg",
    (reply "application/json" (StreamChunk predict_reply_text StreamDone)),
    predict_reply_text, predict_reply, (Some (JStr "ev1")).
  repeat split.
  exists (reply "application/json" (StreamChunk upload_reply_text StreamDone)),
    "application/json", upload_reply_text, upload_reply.
  repeat split.
Qed.

Example exhausted_stream_is_a_listed_failure :
  listed_failure (H := stub_platform) (stub_service StreamDone) photo None.
Proof.
  apply (stream_exhausted _ _ _ (JStr "ev1")
           (reply "text/event-stream" StreamDone) StreamDone "");
    try reflexivity.
  exact stub_predict_answers.
Qed.

Example gradio_client_classification :
  map GradioClientService.extractCategoryFromClassification
    [ "Department: Road Maintenance"; "Overflowing WASTE bin"; "street lamp is off";
      "Trash on the road"; "fallen tree" ]
  = ["pothole"; "garbage"; "streetlight"; "pothole"; "other"].
Proof. reflexivity. Qed.

(* ================================================================== *)
(** * Further properties of the code *)
(* ================================================================== *)

(** ** [toAbsoluteGradioFileUrl] *)

Lemma toAbsoluteGradioFileUrl_http (rel : string) :
  startsWith rel "http" = true -> toAbsoluteGradioFileUrl rel = rel.
Proof.
  intros Hhttp. unfold toAbsoluteGradioFileUrl.
  rewrite (startsWith_nonempty rel "http" eq_refl Hhttp). cbn [negb].
  now rewrite Hhttp.
Qed.

Lemma toAbsoluteGradioFileUrl_cases (rel : string) :
  (rel = "" /\ toAbsoluteGradioFileUrl rel = "")
  \/ (startsWith rel "http" = true /\ toAbsoluteGradioFileUrl rel = rel)
  \/ (exists route, toAbsoluteGradioFileUrl rel = SPACE_ORIGIN ++ route).
Proof.
  destruct rel as [|c rel]; [left; split; reflexivity|].
  right. unfold toAbsoluteGradioFileUrl. cbn [nonempty negb].
  destruct (startsWith (String c rel) "http") eqn:Hhttp; [left; split; reflexivity|].
  right.
  repeat match goal with
         | |- context [if startsWith ?s ?p then _ else _] =>
             destruct (startsWith s p); [eexists; reflexivity|]
         end.
  eexists. reflexivity.
Qed.

Lemma startsWith_head (s p : string) (c : ascii) :
  startsWith s (String c p) = true -> exists s', s = String c s'.
Proof.
  destruct s as [|a s]; simpl; [discriminate|].
  destruct (Ascii.eqb c a) eqn:Hc; [|discriminate].
  apply Ascii.eqb_eq in Hc as ->. intros _. now exists s.
Qed.

(** X1.  [toAbsoluteGradioFileUrl] has three outcomes and no other: the
    empty string for the empty argument; the argument itself, unchanged,
    when it begins with the letters [http] (whether or not it is a URL:
    [httpdocs/a.png] is returned as it is); and, for every other argument,
    a URL made of the origin of the Space, a slash and a route.  The
    result is empty only for the empty argument. *)
Theorem rewritten_url_is_kept_or_joins_the_space (rel : string) :
  ((rel = "" /\ toAbsoluteGradioFileUrl rel = "")
   \/ (startsWith rel "http" = true /\ toAbsoluteGradioFileUrl rel = rel)
   \/ (rel <> "" /\ startsWith rel "http" = false
       /\ exists route, toAbsoluteGradioFileUrl rel = SPACE_ORIGIN ++ "/" ++ route))
  /\ (toAbsoluteGradioFileUrl rel = "" <-> rel = "").
Proof.
  assert (Hcases :
            (rel = "" /\ toAbsoluteGradioFileUrl rel = "")
            \/ (startsWith rel "http" = true /\ toAbsoluteGradioFileUrl rel = rel)
            \/ (rel <> "" /\ startsWith rel "http" = false
                /\ exists route,
                     toAbsoluteGradioFileUrl rel = SPACE_ORIGIN ++ "/" ++ route)).
  { destruct rel as [|c rel]; [left; split; reflexivity|].
    right. unfold toAbsoluteGradioFileUrl. cbn [nonempty negb].
    destruct (startsWith (String c rel) "http") eqn:Hhttp; [left; split; reflexivity|].
    right. split; [discriminate|]. split; [reflexivity|].
    destruct (startsWith (String c rel) "/file=") eqn:H1.
    { apply startsWith_head in H1 as [s' ->]. exists s'. reflexivity. }
    destruct (startsWith (String c rel) "/gradio_api/file=") eqn:H2.
    { apply startsWith_head in H2 as [s' ->]. exists s'. reflexivity. }
    destruct (startsWith (String c rel) "/gradio_api/file/") eqn:H3.
    { apply startsWith_head in H3 as [s' ->]. exists s'. reflexivity. }
    repeat match goal with
           | |- context [if startsWith ?s ?p then _ else _] =>
               destruct (startsWith s p); [eexists; reflexivity|]
           end.
    eexists. reflexivity. }
  split; [exact Hcases|].
  destruct Hcases as [[-> Hr] | [[Hhttp Hr] | (Hne & _ & route & Hr)]]; rewrite Hr.
  - tauto.
  - tauto.
  - split; [discriminate | intros ->; now contradiction Hne].
Qed.

(** A path that begins with the letters [http] is not rewritten. *)
Example http_prefixed_path_is_kept :
  toAbsoluteGradioFileUrl "httpdocs/img/a.png" = "httpdocs/img/a.png".
Proof. reflexivity. Qed.

(** X2.  [toAbsoluteGradioFileUrl] is idempotent: rewriting a URL it has
    produced changes nothing. *)
Theorem rewriting_twice_is_rewriting_once (rel : string) :
  toAbsoluteGradioFileUrl (toAbsoluteGradioFileUrl rel) = toAbsoluteGradioFileUrl rel.
Proof.
  destruct (toAbsoluteGradioFileUrl_cases rel)
    as [[-> Hr] | [[Hhttp Hr] | [route Hr]]]; rewrite Hr.
  - reflexivity.
  - exact (toAbsoluteGradioFileUrl_http rel Hhttp).
  - apply toAbsoluteGradioFileUrl_http. reflexivity.
Qed.

(** X3.  The leading slash is optional for [tmp/] and [file=] paths, which
    are rewritten to the same URL with and without it; it is not for
    [file/] paths: [file/<x>] goes to the [/gradio_api/file/] route and
    [/file/<x>] to the [/file=] route. *)
Theorem leading_slash_of_known_paths (x : string) :
  toAbsoluteGradioFileUrl ("tmp/" ++ x) = toAbsoluteGradioFileUrl ("/tmp/" ++ x)
  /\ toAbsoluteGradioFileUrl ("file=" ++ x) = toAbsoluteGradioFileUrl ("/file=" ++ x)
  /\ toAbsoluteGradioFileUrl ("file/" ++ x) = SPACE_ORIGIN ++ "/gradio_api/file/" ++ x
  /\ toAbsoluteGradioFileUrl ("/file/" ++ x) = SPACE_ORIGIN ++ "/file=/file/" ++ x.
Proof. repeat split. Qed.

(** ** [extractUrlFromOutput] *)

Lemma first_extracted_nonempty (f : jsval -> string) (xs : list jsval) :
  nonempty (first_extracted f xs) = true <->
  exists x, In x xs /\ nonempty (f x) = true.
Proof.
  induction xs as [|x xs IH]; simpl.
  - split; [discriminate | intros (_ & [] & _)].
  - destruct (nonempty (f x)) eqn:Hx.
    + split; [|intros _; exact Hx]. intros _. exists x. auto.
    + rewrite IH. split.
      * intros (y & Hy & Hfy). exists y. auto.
      * intros (y & [<-|Hy] & Hfy); [congruence|]. exists y. auto.
Qed.

Lemma first_extracted_picks (f : jsval -> string) (xs : list jsval) :
  first_extracted f xs = "" \/ exists x, In x xs /\ first_extracted f xs = f x.
Proof.
  induction xs as [|x xs IH]; simpl; [left; reflexivity|].
  destruct (nonempty (f x)).
  - right. exists x. auto.
  - destruct IH as [IH | (y & Hy & IH)]; [left; exact IH|].
    right. exists y. auto.
Qed.

Lemma extracted_string_prefix (s : string) :
  nonempty s = true ->
  http_or_data_image
    (if startsWith s "data:image/" then s else toAbsoluteGradioFileUrl s) = true.
Proof.
  intros Hs. unfold http_or_data_image.
  destruct (startsWith s "data:image/") eqn:Hdata.
  - rewrite Hdata. apply orb_true_r.
  - destruct (toAbsoluteGradioFileUrl_cases s)
      as [[-> _] | [[Hhttp Hr] | [route Hr]]]; [discriminate Hs | |]; rewrite Hr.
    + now rewrite Hhttp.
    + reflexivity.
Qed.

Lemma extractUrlFromOutput_rec_prefix (fuel : nat) :
  forall output : jsval,
    AiService.extractUrlFromOutput_rec fuel output = ""
    \/ http_or_data_image (AiService.extractUrlFromOutput_rec fuel output) = true.
Proof.
  induction fuel as [|fuel IH]; intros output; [left; reflexivity|].
  cbn [AiService.extractUrlFromOutput_rec].
  destruct (truthy output) eqn:Htruthy; cbn [negb]; [|left; reflexivity].
  destruct output as [[| | |s|items|obj]|]; try (left; reflexivity).
  - right. apply extracted_string_prefix. exact Htruthy.
  - destruct (first_extracted_picks (AiService.extractUrlFromOutput_rec fuel)
                (map Some items)) as [-> | (x & _ & ->)]; [left; reflexivity|].
    apply IH.
  - match goal with
    | |- context [first_extracted ?f ?l] =>
        destruct (first_extracted_picks f l) as [-> | (x & _ & ->)]
    end; [left; reflexivity|].
    apply IH.
Qed.

(** X4.  Whatever JSON value it is given, [extractUrlFromOutput] returns
    the empty string or a string that begins with [data:image/] or with
    the letters [http].  The prefix is all that is guaranteed: a string of
    the value that begins with [http] is returned as it is. *)
Theorem extracted_url_prefix (output : jsval) :
  AiService.extractUrlFromOutput output = ""
  \/ http_or_data_image (AiService.extractUrlFromOutput output) = true.
Proof.
  unfold AiService.extractUrlFromOutput.
  apply extractUrlFromOutput_rec_prefix.
Qed.

Lemma holds_string_truthy (x : jsval) : holds_string x -> truthy x = true.
Proof. intros [s Hs| |]; [exact Hs | reflexivity | reflexivity]. Qed.

Lemma extractUrlFromOutput_rec_holds (fuel : nat) :
  forall output : jsval,
    nonempty (AiService.extractUrlFromOutput_rec fuel output) = true ->
    holds_string output.
Proof.
  induction fuel as [|fuel IH]; intros output; [discriminate|].
  cbn [AiService.extractUrlFromOutput_rec].
  destruct (truthy output) eqn:Htruthy; cbn [negb]; [|discriminate].
  destruct output as [[| | |s|items|obj]|]; try discriminate.
  - intros _. apply holds_here. exact Htruthy.
  - intros Hu. apply first_extracted_nonempty in Hu as (x & Hx & Hfx).
    apply in_map_iff in Hx as (j & <- & Hj).
    apply (holds_in_array items j Hj). apply IH. exact Hfx.
  - intros Hu. apply first_extracted_nonempty in Hu as (x & Hx & Hfx).
    apply filter_In in Hx as [Hx _].
    apply (holds_in_object obj x).
    + cbn [probing_order]. rewrite app_nil_r. exact Hx.
    + apply IH. exact Hfx.
Qed.

Lemma holds_string_extracted (output : jsval) :
  holds_string output ->
  nonempty (AiService.extractUrlFromOutput output) = true.
Proof.
  induction 1 as [s Hs | items x Hx _ IH | obj x Hx Hholds IH].
  - unfold AiService.extractUrlFromOutput.
    cbn [jsheight height AiService.extractUrlFromOutput_rec truthy].
    rewrite Hs. cbn [negb].
    pose proof (extracted_string_prefix s Hs) as Hf.
    destruct (if startsWith s "data:image/" then s else toAbsoluteGradioFileUrl s);
      [discriminate Hf | reflexivity].
  - rewrite extractUrlFromOutput_array. apply first_extracted_nonempty.
    exists (Some x). split; [now apply in_map | exact IH].
  - rewrite extractUrlFromOutput_object. apply first_extracted_nonempty.
    exists x. split; [|exact IH].
    apply filter_In. split; [exact Hx | now apply holds_string_truthy].
Qed.

(** X5.  [extractUrlFromOutput] finds a URL exactly when a non-empty string
    sits at a position it reaches (the value itself, an array element, one
    of the fields [url], [path], [name], [value], [data.url], [data.path],
    [data.name] of an object, recursively): every such string is taken
    for a URL, whatever it says, and numbers, booleans and [null] never
    give one. *)
Theorem url_found_iff_string_reachable (output : jsval) :
  nonempty (AiService.extractUrlFromOutput output) = true <-> holds_string output.
Proof.
  split.
  - apply extractUrlFromOutput_rec_holds.
  - apply holds_string_extracted.
Qed.

(** ** Scanning the event stream *)

Lemma guarded_extraction_prefix (guard : bool) (x : jsval) :
  nonempty (if guard then AiService.extractUrlFromOutput x else "") = true ->
  http_or_data_image (if guard then AiService.extractUrlFromOutput x else "") = true.
Proof.
  destruct guard; [|discriminate].
  intros Hne.
  destruct (extractUrlFromOutput_rec_prefix (S (jsheight x)) x) as [He|Hf];
    [|exact Hf].
  unfold AiService.extractUrlFromOutput in Hne. rewrite He in Hne. discriminate Hne.
Qed.

(** A URL assigned by a frame is not empty and begins with one of the two
    prefixes. *)
Lemma probe_frame_prefix (processedImageUrl : string) (jsonData : json)
    (u : string) :
  AiService.probe_frame processedImageUrl jsonData = Ok (Some u) ->
  nonempty u = true /\ http_or_data_image u = true.
Proof.
  unfold AiService.probe_frame, bind.
  repeat match goal with
         | |- (if nonempty ?v then Ok (Some ?v) else _) = _ -> _ =>
             let Hv := fresh "Hv" in
             destruct (nonempty v) eqn:Hv;
             [intros [= <-]; split;
              [exact Hv | apply guarded_extraction_prefix; exact Hv]|]
         | |- match ?c with Ok _ => _ | Throw _ => _ end = _ -> _ =>
             destruct c; [|discriminate]
         end.
  discriminate.
Qed.

Section Scanning.
Context {P : Platform}.

Lemma scan_line_prefix (processedImageUrl line u : string) :
  AiService.scan_line processedImageUrl line = Some u ->
  nonempty u = true /\ http_or_data_image u = true.
Proof.
  unfold AiService.scan_line.
  destruct (startsWith line "data: "); [|discriminate].
  destruct (JSON_parse (substring_from 6 line)) as [jsonData|]; [|discriminate].
  destruct (AiService.probe_frame processedImageUrl jsonData) as [found|e] eqn:Hprobe;
    [|discriminate].
  intros ->. exact (probe_frame_prefix _ _ _ Hprobe).
Qed.

Lemma scan_lines_prefix (lines : list string) :
  AiService.scan_lines "" lines = ""
  \/ (nonempty (AiService.scan_lines "" lines) = true
      /\ http_or_data_image (AiService.scan_lines "" lines) = true).
Proof.
  induction lines as [|line lines IH]; cbn [AiService.scan_lines]; [left; reflexivity|].
  destruct (AiService.scan_line "" line) as [u|] eqn:Hline; [|exact IH].
  right. exact (scan_line_prefix _ _ _ Hline).
Qed.

Lemma read_frames_prefix (reader : ReadableStream) :
  forall (fullData u fullData' : string),
    AiService.read_frames reader "" fullData = Ok (u, fullData') ->
    u = "" \/ http_or_data_image u = true.
Proof.
  induction reader as [|chunk rest IH|]; intros fullData u fullData';
    cbn [AiService.read_frames].
  - intros [= <- _]. left. reflexivity.
  - destruct (scan_lines_prefix (split_newline chunk)) as [Hnone|[Hne Hf]].
    + rewrite Hnone. cbn [nonempty]. apply IH.
    + rewrite Hne. intros [= <- _]. right. exact Hf.
  - discriminate.
Qed.

(** X6.  When [getGradioResult] returns, its [processedImageUrl] is a
    string, is not empty, and begins with the letters [http] or with
    [data:image/]. *)
Theorem annotated_image_url_prefix (fetch : Fetch) (eventId : json)
    (token : option string) (r : AIDetectionResult) :
  AiService.getGradioResult fetch eventId token = Ok r ->
  exists u,
    processedImageUrl r = Some (JStr u)
    /\ nonempty u = true
    /\ http_or_data_image u = true.
Proof.
  unfold AiService.getGradioResult, try_catch, bind.
  destruct (fetch _) as [response|e]; [|discriminate].
  destruct (ok response); cbn [negb]; [|discriminate].
  destruct (body response) as [reader|]; [|discriminate].
  destruct (AiService.read_frames reader "" "") as [[u fullData]|e] eqn:Hread;
    [|discriminate].
  cbn [fst]. destruct (nonempty u) eqn:Hu; cbn [negb]; [|discriminate].
  intros [= <-]. exists u. split; [reflexivity|]. split; [exact Hu|].
  destruct (read_frames_prefix reader "" u fullData Hread) as [->|Hf];
    [discriminate Hu | exact Hf].
Qed.

End Scanning.

Lemma annotated_image_url_prefix_witness :
  exists u,
    processedImageUrl
      {| category := Some "pothole";
         department := Some "Road Maintenance";
         confidence := Some 0.85%Q;
         detectedLabels := Some ["pothole detected by YOLO"];
         processedImageUrl :=
           Some (JStr "https://utkarsh-23-pothole-yolo.hf.space/file=/tmp/out.jpg") |}
    = Some (JStr u)
    /\ nonempty u = true
    /\ http_or_data_image u = true.
Proof.
  apply (annotated_image_url_prefix (P := stub_platform)
           (stub_service heartbeat_then_path) (JStr "ev1") None).
  reflexivity.
Defined.

Lemma split_newline_single (line : string) :
  single_line line = true -> split_newline line = [line].
Proof.
  induction line as [|c line IH]; [reflexivity|].
  cbn [single_line split_newline]. intros Hline.
  apply andb_prop in Hline as [Hc Hline]. apply negb_true_iff in Hc.
  now rewrite Hc, (IH Hline).
Qed.

(** X7.  A frame is only recognised inside one chunk: when the stream cuts
    a data frame in two, the first part not being JSON by itself, neither
    part yields a URL and [getGradioResult] reports that the response holds
    no processed image, whatever the two parts would parse to once
    joined. *)
Theorem frame_cut_by_chunk_boundary_is_lost {P : Platform} (fetch : Fetch)
    (eventId : json) (token : option string) (response : Response)
    (head tail : string) :
  single_line head = true ->
  single_line tail = true ->
  JSON_parse head = None ->
  startsWith tail "data: " = false ->
  fetch (result_request eventId token) = Ok response ->
  ok response = true ->
  body response
  = Some (StreamChunk ("data: " ++ head) (StreamChunk (tail ++ nl ++ nl) StreamDone)) ->
  AiService.getGradioResult fetch eventId token
  = Throw (Error "No processed image URL in response").
Proof.
  intros Hhead Htail Hparse Hdata Hfetch Hok Hbody.
  assert (Hfirst : AiService.scan_lines "" (split_newline ("data: " ++ head)) = "").
  { rewrite (split_newline_single _ (single_line_data head Hhead)).
    cbn [AiService.scan_lines]. unfold AiService.scan_line.
    change (startsWith ("data: " ++ head) "data: ") with true.
    change (substring_from 6 ("data: " ++ head)) with head.
    now rewrite Hparse. }
  assert (Hsecond : AiService.scan_lines "" (split_newline (tail ++ nl ++ nl)) = "").
  { replace (tail ++ nl ++ nl) with (tail ++ nl ++ ("" ++ nl ++ ""))
      by reflexivity.
    rewrite (split_newline_line tail _ Htail), (split_newline_line "" "" eq_refl).
    cbn [AiService.scan_lines split_newline]. unfold AiService.scan_line.
    now rewrite Hdata. }
  unfold result_request in Hfetch.
  unfold AiService.getGradioResult, try_catch, bind.
  rewrite Hfetch, Hok, Hbody. cbn [negb AiService.read_frames].
  rewrite Hfirst. cbn [nonempty]. rewrite Hsecond. reflexivity.
Qed.

Lemma frame_cut_by_chunk_boundary_is_lost_witness :
  JSON_parse (Platform := stub_platform) (path_frame_head ++ path_frame_tail)
  = Some path_frame
  /\ AiService.getGradioResult (H := stub_platform)
       (stub_service
          (StreamChunk ("data: " ++ path_frame_head)
             (StreamChunk (path_frame_tail ++ nl ++ nl) StreamDone)))
       (JStr "ev1") None
     = Throw (Error "No processed image URL in response").
Proof.
  split; [reflexivity|].
  apply (frame_cut_by_chunk_boundary_is_lost (P := stub_platform) _ _ _
           (reply "text/event-stream"
              (StreamChunk ("data: " ++ path_frame_head)
                 (StreamChunk (path_frame_tail ++ nl ++ nl) StreamDone)))
           path_frame_head path_frame_tail);
    reflexivity.
Defined.

(** X8.  A data frame whose JSON is [null], a boolean, a number or a
    string never yields a URL: the exception raised on [null] is swallowed,
    and a bare string is not probed even when it is a path. *)
Theorem primitive_frame_yields_nothing {P : Platform}
    (processedImageUrl payload : string) (jsonData : json) :
  JSON_parse payload = Some jsonData ->
  is_primitive jsonData = true ->
  AiService.scan_line processedImageUrl ("data: " ++ payload) = None.
Proof.
  intros Hparse Hprim. unfold AiService.scan_line.
  change (startsWith ("data: " ++ payload) "data: ") with true.
  change (substring_from 6 ("data: " ++ payload)) with payload.
  rewrite Hparse. unfold AiService.probe_frame.
  destruct jsonData; try discriminate Hprim;
    cbn [isArray andb nonempty get bind truthy];
    rewrite ?andb_false_r; reflexivity.
Qed.

Lemma primitive_frame_yields_nothing_witness :
  AiService.scan_line (H := stub_platform) "" ("data: " ++ "null") = None.
Proof.
  apply (primitive_frame_yields_nothing (P := stub_platform) "" "null" JNull);
    reflexivity.
Defined.

(** ** [uploadImageToGradio] *)

(** X9.  A reply of the upload route that is not declared as JSON never
    yields an event id: its text is kept as a string, no file path can be
    read from a string, and [uploadImageToGradio] throws ("No file path
    received from upload" when the body could be read). *)
Theorem upload_reply_must_be_json {P : Platform} (fetch : Fetch)
    (imageFile : File) (token : option string) (response : Response) :
  fetch (upload_request imageFile token) = Ok response ->
  ok response = true ->
  includes (match contentType response with
            | Some mime => mime
            | None => ""
            end) "application/json" = false ->
  (exists e, AiService.uploadImageToGradio fetch imageFile token = Throw e)
  /\ (forall text, Response_text response = Ok text ->
        AiService.uploadImageToGradio fetch imageFile token
        = Throw (Error "No file path received from upload")).
Proof.
  intros Hfetch Hok Hmime. unfold upload_request in Hfetch.
  unfold AiService.uploadImageToGradio, try_catch, bind.
  rewrite Hfetch, Hok, Hmime. cbn [negb].
  destruct (Response_text response) as [text|e].
  - split; [eexists; reflexivity|]. intros ? _. reflexivity.
  - split; [eexists; reflexivity|]. discriminate.
Qed.

Lemma upload_reply_must_be_json_witness :
  (exists e,
      AiService.uploadImageToGradio (H := stub_platform)
        (fun _ => Ok (reply "text/plain" (StreamChunk upload_reply_text StreamDone)))
        photo None = Throw e)
  /\ (forall text,
        Response_text (reply "text/plain" (StreamChunk upload_reply_text StreamDone))
        = Ok text ->
        AiService.uploadImageToGradio (H := stub_platform)
          (fun _ => Ok (reply "text/plain" (StreamChunk upload_reply_text StreamDone)))
          photo None
        = Throw (Error "No file path received from upload")).
Proof.
  apply (upload_reply_must_be_json (P := stub_platform)
           (fun _ => Ok (reply "text/plain" (StreamChunk upload_reply_text StreamDone)))
           photo None
           (reply "text/plain" (StreamChunk upload_reply_text StreamDone)));
    reflexivity.
Defined.

(** ** [mockAIDetection] *)

(** X11.  Whatever the file and the state of the generator, the mock result
    carries one of the four categories, the department the table gives for
    it, the single label [mock_<category>_label], no annotated image, and a
    confidence between 0.75 and 0.95, both ends included.  (The upper end
    is included because the code adds in double precision, where the
    largest draws round to 0.95; the exact sum stays below it.) *)
Theorem mock_result_is_consistent (imageFile : File) (g : RandomSource) :
  exists (c : string) (q : Q),
    fst (mockAIDetection imageFile g)
    = {| category := Some c;
         department := lookup c DEPARTMENT_MAP;
         confidence := Some q;
         detectedLabels := Some ["mock_" ++ c ++ "_label"];
         processedImageUrl := None |}
    /\ valid_category c = true
    /\ lookup c DEPARTMENT_MAP <> None
    /\ (0.75 <= q /\ q <= 0.95)%Q.
Proof.
  destruct (mockAIDetection_shape imageFile g) as (c & u & Hr & Hvalid & Hdept).
  exists c, (0.75 + sample u * 0.2)%Q. repeat split; try assumption.
  - destruct (sample_bounds u). lra.
  - destruct (sample_bounds u). lra.
Qed.

(** X12.  A file whose name contains "pothole" or "road", in whatever case
    and among whatever else, is classified [pothole] by the mock, with
    department "Road Maintenance", whatever the generator draws. *)
Theorem mock_reads_pothole_from_file_name (imageFile : File) (g : RandomSource) :
  contains_ignoring_case (name imageFile) "pothole"
  \/ contains_ignoring_case (name imageFile) "road" ->
  category (fst (mockAIDetection imageFile g)) = Some "pothole"
  /\ department (fst (mockAIDetection imageFile g)) = Some "Road Maintenance"
  /\ detectedLabels (fst (mockAIDetection imageFile g)) = Some ["mock_pothole_label"].
Proof.
  intros Hname.
  assert (Hhint : includes (toLowerCase (name imageFile)) "pothole"
                  || includes (toLowerCase (name imageFile)) "road" = true).
  { destruct Hname as [Hc|Hc]; apply includes_lowered_segment in Hc.
    - change (toLowerCase "pothole") with "pothole" in Hc. now rewrite Hc.
    - change (toLowerCase "road") with "road" in Hc. rewrite Hc. apply orb_true_r. }
  unfold mockAIDetection. rewrite Hhint. repeat split.
Qed.

Lemma mock_reads_pothole_from_file_name_witness :
  category (fst (mockAIDetection
                   {| name := "IMG_0042_RailRoad_trash.JPG"; type := "image/jpeg";
                      content := "" |} cycle_source)) = Some "pothole"
  /\ department (fst (mockAIDetection
                   {| name := "IMG_0042_RailRoad_trash.JPG"; type := "image/jpeg";
                      content := "" |} cycle_source)) = Some "Road Maintenance"
  /\ detectedLabels (fst (mockAIDetection
                   {| name := "IMG_0042_RailRoad_trash.JPG"; type := "image/jpeg";
                      content := "" |} cycle_source)) = Some ["mock_pothole_label"].
Proof.
  apply mock_reads_pothole_from_file_name.
  right. exists "IMG_0042_Rail", "Road", "_trash.JPG". split; reflexivity.
Defined.

Lemma Qfloor_between (x : Q) (z : Z) :
  (inject_Z z <= x)%Q -> (x < inject_Z (z + 1))%Q -> Qfloor x = z.
Proof.
  intros Hlow Hhigh.
  assert (z <= Qfloor x)%Z.
  { rewrite <- (Qfloor_Z z). now apply Qfloor_resp_le. }
  assert (Qfloor x < z + 1)%Z.
  { rewrite Zlt_Qlt. apply Qle_lt_trans with x; [apply Qfloor_le | exact Hhigh]. }
  lia.
Qed.

(** X13.  With a file name that gives no hint, the mock takes two draws of
    [Math.random]: the quarter of the unit interval in which the first one
    falls selects the category, in the order pothole, garbage, streetlight,
    other, and the second one gives the confidence. *)
Theorem mock_picks_category_by_quarter (imageFile : File) (g : RandomSource)
    (k : nat) :
  includes (toLowerCase (name imageFile)) "pothole" = false ->
  includes (toLowerCase (name imageFile)) "road" = false ->
  includes (toLowerCase (name imageFile)) "garbage" = false ->
  includes (toLowerCase (name imageFile)) "trash" = false ->
  includes (toLowerCase (name imageFile)) "light" = false ->
  includes (toLowerCase (name imageFile)) "lamp" = false ->
  (inject_Z (Z.of_nat k) / 4 <= sample (draws g (cursor g)))%Q ->
  (sample (draws g (cursor g)) < inject_Z (Z.of_nat k + 1) / 4)%Q ->
  category (fst (mockAIDetection imageFile g)) = nth_error categories k
  /\ confidence (fst (mockAIDetection imageFile g))
     = Some (0.75 + sample (draws g (S (cursor g))) * 0.2)%Q
  /\ cursor (snd (mockAIDetection imageFile g)) = S (S (cursor g)).
Proof.
  intros H1 H2 H3 H4 H5 H6 Hlow Hhigh.
  unfold mockAIDetection. rewrite H1, H2, H3, H4, H5, H6.
  cbn [orb Math_random draws cursor fst snd category confidence].
  repeat split.
  change (inject_Z (Z.of_nat (List.length categories))) with (inject_Z 4).
  unfold Math_floor.
  rewrite (Qfloor_between _ (Z.of_nat k)).
  - unfold index.
    destruct (Z.ltb_spec (Z.of_nat k) 0) as [Hneg|_]; [lia|].
    now rewrite Nat2Z.id.
  - change (inject_Z 4) with 4%Q. unfold Qdiv in Hlow.
    change (/ 4)%Q with (1 # 4)%Q in Hlow. lra.
  - change (inject_Z 4) with 4%Q. unfold Qdiv in Hhigh.
    change (/ 4)%Q with (1 # 4)%Q in Hhigh. lra.
Qed.

Lemma mock_picks_category_by_quarter_witness :
  category (fst (mockAIDetection photo {| draws := cycle_draws; cursor := 2 |}))
  = nth_error categories 2
  /\ confidence (fst (mockAIDetection photo {| draws := cycle_draws; cursor := 2 |}))
     = Some (0.75 + sample (cycle_draws 3) * 0.2)%Q
  /\ cursor (snd (mockAIDetection photo {| draws := cycle_draws; cursor := 2 |})) = 4.
Proof.
  apply (mock_picks_category_by_quarter photo {| draws := cycle_draws; cursor := 2 |} 2);
    try reflexivity.
  unfold Qle. cbn. lia.
Defined.

(** ** [detectIssueWithAI], both services *)

(** X14.  For every behaviour of the remote service, the result of
    [detectIssueWithAI] pairs its category with the department the table
    gives for that category, and carries a [processedImageUrl] exactly when
    the remote path succeeded: a result without one is the mock's. *)
Theorem detection_result_is_consistent {P : Platform} (fetch : Fetch)
    (imageFile : File) (token : option string) (g : RandomSource) :
  exists (r : AIDetectionResult) (g' : RandomSource) (c : string),
    AiService.detectIssueWithAI fetch imageFile token g = (Ok r, g')
    /\ category r = Some c
    /\ department r = lookup c DEPARTMENT_MAP
    /\ (processedImageUrl r <> None <->
        AiService.detectIssueWithAI_try fetch imageFile token = Ok r).
Proof.
  unfold AiService.detectIssueWithAI.
  destruct (AiService.detectIssueWithAI_try fetch imageFile token) as [r|e] eqn:Htry.
  - exists r, g, "pothole".
    apply detectIssueWithAI_try_shape in Htry as (eventId & _ & _ & Hres).
    apply getGradioResult_shape in Hres as (u & _ & ->).
    repeat split; discriminate.
  - destruct (mockAIDetection_shape imageFile g) as (c & u & Hr & _ & _).
    destruct (mockAIDetection imageFile g) as [fallback g']. cbn [fst] in Hr.
    exists fallback, g', c. subst fallback. repeat split.
    + intros Hurl. now contradiction Hurl.
    + discriminate.
Qed.

Lemma extractCategoryFromClassification_valid (classification : string) :
  valid_category
    (GradioClientService.extractCategoryFromClassification classification) = true
  /\ lookup (GradioClientService.extractCategoryFromClassification classification)
       DEPARTMENT_MAP <> None.
Proof.
  unfold GradioClientService.extractCategoryFromClassification.
  repeat match goal with
         | |- context [if ?c then _ else _] => destruct c
         end; split; (reflexivity || discriminate).
Qed.


(** ** [extractCategoryFromClassification] *)

(** X16.  A classification text is classified [other] exactly when it
    contains none of the keywords pothole, road, road maintenance, garbage,
    waste, sanitation, trash, light, lamp, public works, in any case. *)
Theorem other_only_without_keyword (classification : string) :
  GradioClientService.extractCategoryFromClassification classification = "other"
  <-> forallb (fun keyword => negb (includes (toLowerCase classification) keyword))
        classification_keywords = true.
Proof.
  unfold GradioClientService.extractCategoryFromClassification,
    classification_keywords.
  cbn [forallb].
  repeat match goal with
         | |- context [includes ?s ?k] => destruct (includes s k)
         end; cbn [orb andb negb]; split; (reflexivity || discriminate).
Qed.

(** ** [processAIResponse] *)

Lemma fold_left_invariant {S A : Type} (f : S -> A -> S) (I : S -> Prop)
    (xs : list A) :
  (forall state x, In x xs -> I state -> I (f state x)) ->
  forall state, I state -> I (fold_left f xs state).
Proof.
  induction xs as [|x xs IH]; intros Hstep state Hstate; cbn [fold_left];
    [exact Hstate|].
  apply IH.
  - intros st y Hy. apply Hstep. now right.
  - apply Hstep; [now left | exact Hstate].
Qed.

Lemma backed_by_nonnegative (topPredictions : list HuggingFacePrediction)
    (state : string * Q) :
  backed_by topPredictions state -> (0 <= snd state)%Q.
Proof.
  intros [-> | [Hpos _]]; [apply Qle_refl | now apply Qlt_le_weak].
Qed.

Lemma consider_backed (topPredictions : list HuggingFacePrediction)
    (category : string) (keywords : list string) (lowered keyword : string)
    (state : string * Q) :
  In (category, keywords) CATEGORY_KEYWORDS ->
  In keyword keywords ->
  backed_by topPredictions state ->
  backed_by topPredictions (consider topPredictions category lowered keyword state).
Proof.
  intros Hentry Hkeyword Hstate. unfold consider.
  destruct (label_matches lowered keyword) eqn:Hmatch; [|exact Hstate].
  destruct (find (has_label lowered) topPredictions) as [p|] eqn:Hfind;
    [|exact Hstate].
  destruct (Qle_bool (score p) (snd state)) eqn:Hle; cbn [negb]; [exact Hstate|].
  apply find_some in Hfind as [Hp Hlabel].
  unfold has_label in Hlabel. apply String.eqb_eq in Hlabel.
  right. cbn [fst snd]. split.
  - pose proof (backed_by_nonnegative _ _ Hstate) as Hnonneg.
    apply Qle_lt_trans with (snd state); [exact Hnonneg|].
    apply Qnot_le_lt. intros Hc. apply Qle_bool_iff in Hc. congruence.
  - exists keywords, keyword, p. rewrite Hlabel. auto.
Qed.

Lemma processAIResponse_loops_backed (topPredictions : list HuggingFacePrediction)
    (lowereds : list string) :
  backed_by topPredictions
    (fold_left
       (fun state entry =>
          let '(category, keywords) := entry in
          fold_left
            (fun state lowered =>
               fold_left
                 (fun state keyword =>
                    consider topPredictions category lowered keyword state)
                 keywords state)
            lowereds state)
       CATEGORY_KEYWORDS ("other", 0%Q)).
Proof.
  apply fold_left_invariant; [|left; reflexivity].
  intros state [category keywords] Hentry Hstate.
  apply fold_left_invariant; [|exact Hstate].
  intros state' lowered _ Hstate'.
  apply fold_left_invariant; [|exact Hstate'].
  intros state'' keyword Hkeyword Hstate''.
  now apply (consider_backed topPredictions category keywords).
Qed.

Lemma CATEGORY_KEYWORDS_departments (category : string) (keywords : list string) :
  In (category, keywords) CATEGORY_KEYWORDS ->
  category <> "other" /\ lookup category DEPARTMENT_MAP <> None.
Proof.
  intros Hentry. cbn in Hentry.
  repeat (destruct Hentry as [[= <- _]|Hentry]; [split; discriminate|]).
  contradiction.
Qed.

(** X17.  [processAIResponse] always names a department, the table's entry
    for the category it returns.  The category is [other] with confidence 0
    (nothing matched, or the response is empty or not an array), or it is
    one of the five categories of [CATEGORY_KEYWORDS] with a positive
    confidence, which is the score of one of the first five predictions,
    whose lowered label contains, or is contained in, a keyword of that
    category. *)
Theorem processed_category_is_backed (apiResponse : ApiResponse) :
  exists (c : string) (q : Q),
    category (processAIResponse apiResponse) = Some c
    /\ confidence (processAIResponse apiResponse) = Some q
    /\ department (processAIResponse apiResponse) = lookup c DEPARTMENT_MAP
    /\ lookup c DEPARTMENT_MAP <> None
    /\ ((c = "other" /\ q = 0%Q)
        \/ (c <> "other" /\ (0 < q)%Q
            /\ exists predictions keywords keyword p,
                 apiResponse = PredictionArray predictions
                 /\ In (c, keywords) CATEGORY_KEYWORDS
                 /\ In keyword keywords
                 /\ In p (firstn 5 predictions)
                 /\ label_matches (toLowerCase (label p)) keyword = true
                 /\ score p = q)).
Proof.
  destruct apiResponse as [|[|first others]];
    try (exists "other", 0%Q; repeat split; [discriminate | left; split; reflexivity]).
  unfold processAIResponse.
  match goal with
  | |- context [fold_left ?f CATEGORY_KEYWORDS ?init] =>
      pose proof (processAIResponse_loops_backed (firstn 5 (first :: others))
                    (map (fun p => toLowerCase (label p)) (firstn 5 (first :: others))))
        as Hbacked;
      destruct (fold_left f CATEGORY_KEYWORDS init) as [c q] eqn:Hloops
  end.
  exists c, q. cbn [category confidence department fst snd].
  destruct Hbacked as [[= -> ->] | [Hpos (keywords & keyword & p & Hentry & Hrest)]].
  - repeat split; [discriminate | left; split; reflexivity].
  - cbn [fst snd] in *.
    destruct (CATEGORY_KEYWORDS_departments c keywords Hentry) as [Hother Hdept].
    repeat split; [exact Hdept|]. right. repeat split; [exact Hother | exact Hpos|].
    exists (first :: others), keywords, keyword, p. tauto.
Qed.

Lemma fold_left_above {S A : Type} (f : S -> A -> S) (m : S -> Q) (xs : list A) :
  (forall state x, (m state <= m (f state x))%Q) ->
  forall state, (m state <= m (fold_left f xs state))%Q.
Proof.
  intros Hstep. induction xs as [|x xs IH]; intros state; cbn [fold_left].
  - apply Qle_refl.
  - apply Qle_trans with (m (f state x)); [apply Hstep | apply IH].
Qed.

Lemma fold_left_covers {S A : Type} (f : S -> A -> S) (m : S -> Q)
    (req : A -> Q -> Prop) (xs : list A) :
  (forall x a b, req x a -> (a <= b)%Q -> req x b) ->
  (forall state x, (m state <= m (f state x))%Q) ->
  (forall state x, req x (m (f state x))) ->
  forall x, In x xs -> forall state, req x (m (fold_left f xs state)).
Proof.
  intros Hup Hstep Hreq x. induction xs as [|y xs IH]; [contradiction|].
  intros [->|Hin] state; cbn [fold_left].
  - apply Hup with (m (f state x)); [apply Hreq|].
    now apply fold_left_above.
  - now apply IH.
Qed.

Lemma consider_above (topPredictions : list HuggingFacePrediction)
    (category lowered keyword : string) (state : string * Q) :
  (snd state <= snd (consider topPredictions category lowered keyword state))%Q.
Proof.
  unfold consider.
  destruct (label_matches lowered keyword); [|apply Qle_refl].
  destruct (find (has_label lowered) topPredictions) as [p|]; [|apply Qle_refl].
  destruct (Qle_bool (score p) (snd state)) eqn:Hle; cbn [negb snd];
    [apply Qle_refl|].
  apply Qlt_le_weak, Qnot_le_lt. intros Hc. apply Qle_bool_iff in Hc. congruence.
Qed.

Lemma consider_covers (topPredictions : list HuggingFacePrediction)
    (category lowered keyword : string) (state : string * Q)
    (p : HuggingFacePrediction) :
  label_matches lowered keyword = true ->
  find (has_label lowered) topPredictions = Some p ->
  (score p <= snd (consider topPredictions category lowered keyword state))%Q.
Proof.
  intros Hmatch Hfind. unfold consider. rewrite Hmatch, Hfind.
  destruct (Qle_bool (score p) (snd state)) eqn:Hle; cbn [negb snd].
  - now apply Qle_bool_iff.
  - apply Qle_refl.
Qed.

(** X18.  The confidence [processAIResponse] returns is at least the score
    of every matching prediction: for each of the first five predictions
    whose lowered label contains, or is contained in, a keyword of some
    category, it is no less than the score found for that label (the score
    of the first of the five predictions that carries it). *)
Theorem confidence_bounds_matching_scores
    (predictions : list HuggingFacePrediction) (p p0 : HuggingFacePrediction)
    (category : string) (keywords : list string) (keyword : string) :
  In (category, keywords) CATEGORY_KEYWORDS ->
  In keyword keywords ->
  In p (firstn 5 predictions) ->
  label_matches (toLowerCase (label p)) keyword = true ->
  find (has_label (toLowerCase (label p))) (firstn 5 predictions) = Some p0 ->
  exists q,
    confidence (processAIResponse (PredictionArray predictions)) = Some q
    /\ (score p0 <= q)%Q.
Proof.
  intros Hentry Hkeyword Hp Hmatch Hfind.
  destruct predictions as [|first others]; [destruct Hp|].
  unfold processAIResponse. cbn [confidence]. eexists. split; [reflexivity|].
  set (top := firstn 5 (first :: others)) in *.
  set (lowereds := map (fun p => toLowerCase (label p)) top).
  assert (Hlowered : In (toLowerCase (label p)) lowereds)
    by (apply in_map_iff; exists p; auto).
  pose (req_keyword (lowered kw : string) (q : Q) :=
          label_matches lowered kw = true ->
          forall p', find (has_label lowered) top = Some p' -> (score p' <= q)%Q).
  pose (req_lowered (ks : list string) (lowered : string) (q : Q) :=
          forall kw, In kw ks -> req_keyword lowered kw q).
  pose (req_entry (entry : string * list string) (q : Q) :=
          forall lowered, In lowered lowereds -> req_lowered (snd entry) lowered q).
  assert (Hup : forall lowered kw a b,
             req_keyword lowered kw a -> (a <= b)%Q -> req_keyword lowered kw b).
  { intros lowered kw a b Ha Hab Hm p' Hp'.
    apply Qle_trans with a; [now apply Ha | exact Hab]. }
  assert (Hinner : forall c ks lowered state kw,
             In kw ks ->
             req_keyword lowered kw
               (snd (fold_left (fun (st : string * Q) (k : string) => consider top c lowered k st) ks state))).
  { intros c ks lowered state kw Hkw.
    apply (fold_left_covers (fun (st : string * Q) (k : string) => consider top c lowered k st) (@snd string Q)
             (req_keyword lowered) ks);
      [ exact (Hup lowered)
      | intros st k; apply consider_above
      | intros st k Hm p' Hp'; now apply consider_covers
      | exact Hkw ]. }
  assert (Hinner_above : forall c ks lowered state,
             (snd state
              <= snd (fold_left (fun (st : string * Q) (k : string) => consider top c lowered k st) ks state))%Q).
  { intros c ks lowered state. apply (fold_left_above _ (@snd string Q)).
    intros st k. apply consider_above. }
  assert (Hmiddle : forall c ks state lowered,
             In lowered lowereds ->
             req_lowered ks lowered
               (snd (fold_left
                       (fun (st : string * Q) (lw : string) => fold_left (fun (st : string * Q) (k : string) => consider top c lw k st) ks st)
                       lowereds state))).
  { intros c ks state lowered Hlw.
    apply (fold_left_covers
             (fun (st : string * Q) (lw : string) => fold_left (fun (st : string * Q) (k : string) => consider top c lw k st) ks st)
             (@snd string Q) (req_lowered ks) lowereds);
      [ intros lw a b Ha Hab kw Hkw; apply Hup with a; auto
      | intros st lw; apply Hinner_above
      | intros st lw kw Hkw; now apply Hinner
      | exact Hlw ]. }
  assert (Hmiddle_above : forall c ks state,
             (snd state
              <= snd (fold_left
                        (fun (st : string * Q) (lw : string) => fold_left (fun (st : string * Q) (k : string) => consider top c lw k st) ks st)
                        lowereds state))%Q).
  { intros c ks state. apply (fold_left_above _ (@snd string Q)).
    intros st lw. apply Hinner_above. }
  assert (Houter : req_entry (category, keywords)
            (snd (fold_left
                    (fun (state : string * Q) (entry : string * list string) =>
                       let '(c, ks) := entry in
                       fold_left
                         (fun (st : string * Q) (lw : string) => fold_left (fun (st : string * Q) (k : string) => consider top c lw k st) ks st)
                         lowereds state)
                    CATEGORY_KEYWORDS ("other", 0%Q)))).
  { apply (fold_left_covers
             (fun (state : string * Q) (entry : string * list string) =>
                let '(c, ks) := entry in
                fold_left
                  (fun (st : string * Q) (lw : string) => fold_left (fun (st : string * Q) (k : string) => consider top c lw k st) ks st)
                  lowereds state)
             (@snd string Q) req_entry CATEGORY_KEYWORDS);
      [ intros entry a b Ha Hab lw Hlw kw Hkw; apply Hup with a;
        [now apply Ha | exact Hab]
      | intros st [c ks]; apply Hmiddle_above
      | intros st [c ks] lw Hlw; now apply Hmiddle
      | exact Hentry ]. }
  exact (Houter _ Hlowered keyword Hkeyword Hmatch p0 Hfind).
Qed.

Lemma confidence_bounds_matching_scores_witness :
  exists q,
    confidence
      (processAIResponse
         (PredictionArray
            [ {| label := "Pothole"; score := 0.4 |};
              {| label := "Trash can"; score := 0.9 |} ])) = Some q
    /\ (score {| label := "Trash can"; score := 0.9 |} <= q)%Q.
Proof.
  apply (confidence_bounds_matching_scores
           [ {| label := "Pothole"; score := 0.4 |};
             {| label := "Trash can"; score := 0.9 |} ]
           {| label := "Trash can"; score := 0.9 |}
           {| label := "Trash can"; score := 0.9 |}
           "garbage" ["garbage"; "trash"; "litter"; "waste"; "rubbish"; "dump"] "trash").
  - cbn. tauto.
  - cbn. tauto.
  - cbn. tauto.
  - reflexivity.
  - reflexivity.
Defined.

(** X19.  Only the first five predictions count: whatever follows them in
    the response, however high its score, changes nothing in the result. *)
Theorem predictions_beyond_the_fifth_are_ignored
    (predictions extra : list HuggingFacePrediction) :
  5 <= List.length predictions ->
  processAIResponse (PredictionArray (predictions ++ extra)%list)
  = processAIResponse (PredictionArray predictions).
Proof.
  intros Hlen.
  destruct predictions as [|first others]; [cbn in Hlen; lia|].
  change ((first :: others) ++ extra)%list with (first :: (others ++ extra)%list).
  unfold processAIResponse.
  change (first :: (others ++ extra)%list) with ((first :: others) ++ extra)%list.
  rewrite firstn_app.
  replace (5 - List.length (first :: others)) with 0 by lia.
  cbn [firstn]. rewrite app_nil_r. reflexivity.
Qed.

Lemma predictions_beyond_the_fifth_are_ignored_witness :
  processAIResponse
    (PredictionArray
       ([ {| label := "wall"; score := 0.5 |}; {| label := "tree"; score := 0.4 |};
          {| label := "sky"; score := 0.3 |}; {| label := "car"; score := 0.2 |};
          {| label := "dog"; score := 0.1 |} ]
        ++ [ {| label := "pothole"; score := 0.99 |} ])%list)
  = processAIResponse
      (PredictionArray
         [ {| label := "wall"; score := 0.5 |}; {| label := "tree"; score := 0.4 |};
           {| label := "sky"; score := 0.3 |}; {| label := "car"; score := 0.2 |};
           {| label := "dog"; score := 0.1 |} ]).
Proof.
  apply predictions_beyond_the_fifth_are_ignored. cbn. lia.
Defined.

Section SinglePrediction.
Variable p : HuggingFacePrediction.
Hypothesis positive_score : (0 < score p)%Q.

Local Notation lowered := (toLowerCase (label p)).

Lemma consider_single (category keyword : string) (state : string * Q) :
  consider [p] category lowered keyword state
  = if label_matches lowered keyword
    then if negb (Qle_bool (score p) (snd state)) then (category, score p) else state
    else state.
Proof.
  unfold consider. cbn [find]. unfold has_label. fold lowered.
  now rewrite String.eqb_refl.
Qed.

Lemma keywords_after_match (category c : string) (keywords : list string) :
  fold_left (fun state keyword => consider [p] category lowered keyword state)
    keywords (c, score p)
  = (c, score p).
Proof.
  induction keywords as [|keyword keywords IH]; cbn [fold_left]; [reflexivity|].
  rewrite consider_single. cbn [snd].
  replace (Qle_bool (score p) (score p)) with true
    by (symmetry; apply Qle_bool_iff, Qle_refl).
  cbn [negb]. destruct (label_matches lowered keyword); exact IH.
Qed.

Lemma keywords_before_match (category c : string) (keywords : list string) :
  fold_left (fun state keyword => consider [p] category lowered keyword state)
    keywords (c, 0%Q)
  = if existsb (label_matches lowered) keywords then (category, score p) else (c, 0%Q).
Proof.
  induction keywords as [|keyword keywords IH]; cbn [fold_left existsb]; [reflexivity|].
  rewrite consider_single. cbn [snd].
  destruct (label_matches lowered keyword); cbn [orb]; [|exact IH].
  replace (Qle_bool (score p) 0) with false.
  - cbn [negb]. apply keywords_after_match.
  - symmetry. apply not_true_is_false. intros Hle.
    apply Qle_bool_iff in Hle. apply (Qlt_not_le _ _ positive_score Hle).
Qed.

Lemma entries_after_match (c : string) (entries : list (string * list string)) :
  fold_left
    (fun state entry =>
       let '(category, keywords) := entry in
       fold_left
         (fun state lw =>
            fold_left (fun state keyword => consider [p] category lw keyword state)
              keywords state)
         [lowered] state)
    entries (c, score p)
  = (c, score p).
Proof.
  induction entries as [|[category keywords] entries IH]; cbn [fold_left];
    [reflexivity|].
  rewrite keywords_after_match. exact IH.
Qed.

Lemma entries_before_match (entries : list (string * list string)) :
  fold_left
    (fun state entry =>
       let '(category, keywords) := entry in
       fold_left
         (fun state lw =>
            fold_left (fun state keyword => consider [p] category lw keyword state)
              keywords state)
         [lowered] state)
    entries ("other", 0%Q)
  = match find (fun entry => existsb (label_matches lowered) (snd entry)) entries with
    | Some entry => (fst entry, score p)
    | None => ("other", 0%Q)
    end.
Proof.
  induction entries as [|[category keywords] entries IH]; cbn [fold_left find snd];
    [reflexivity|].
  rewrite keywords_before_match.
  destruct (existsb (label_matches lowered) keywords); [|exact IH].
  apply entries_after_match.
Qed.

Lemma processAIResponse_single :
  processAIResponse (PredictionArray [p])
  = match find (fun entry => existsb (label_matches (toLowerCase (label p))) (snd entry))
            CATEGORY_KEYWORDS with
    | Some entry =>
        {| category := Some (fst entry);
           department := lookup (fst entry) DEPARTMENT_MAP;
           confidence := Some (score p);
           detectedLabels := Some [toLowerCase (label p)];
           processedImageUrl := None |}
    | None =>
        {| category := Some "other";
           department := Some "General Services";
           confidence := Some 0%Q;
           detectedLabels := Some [toLowerCase (label p)];
           processedImageUrl := None |}
    end.
Proof.
  unfold processAIResponse. cbn [firstn map]. fold lowered.
  rewrite (entries_before_match CATEGORY_KEYWORDS).
  destruct (find _ CATEGORY_KEYWORDS); reflexivity.
Qed.

(** X20.  For a response with a single prediction of positive score, the
    category is the first one, in the order of [CATEGORY_KEYWORDS], that has
    a keyword contained in the lowered label or containing it, and the
    confidence is the score; when no keyword matches, the category is
    [other] and the confidence 0. *)
Theorem single_prediction_takes_first_matching_category :
  processAIResponse (PredictionArray [p])
  = match find (fun entry => existsb (label_matches (toLowerCase (label p))) (snd entry))
            CATEGORY_KEYWORDS with
    | Some entry =>
        {| category := Some (fst entry);
           department := lookup (fst entry) DEPARTMENT_MAP;
           confidence := Some (score p);
           detectedLabels := Some [toLowerCase (label p)];
           processedImageUrl := None |}
    | None =>
        {| category := Some "other";
           department := Some "General Services";
           confidence := Some 0%Q;
           detectedLabels := Some [toLowerCase (label p)];
           processedImageUrl := None |}
    end.
Proof.
  unfold processAIResponse. cbn [firstn map].
  rewrite (entries_before_match CATEGORY_KEYWORDS).
  destruct (find _ CATEGORY_KEYWORDS); reflexivity.
Qed.

(** X21.  The result of [processAIResponse] can leave the four categories
    its type declares: a single prediction of positive score labelled
    water, leak, pipe or flooding (in any case) is given the category
    [water] and the department "Water Department". *)
Theorem water_label_leaves_the_declared_categories :
  In (toLowerCase (label p)) ["water"; "leak"; "pipe"; "flooding"] ->
  category (processAIResponse (PredictionArray [p])) = Some "water"
  /\ department (processAIResponse (PredictionArray [p])) = Some "Water Department"
  /\ valid_category "water" = false.
Proof.
  intros Hlabel. rewrite processAIResponse_single.
  cbn [In] in Hlabel.
  destruct Hlabel as [<- | [<- | [<- | [<- | []]]]]; repeat split.
Qed.

(** X22.  The keyword test also holds when the label is contained in the
    keyword: a single prediction of positive score whose lowered label is
    empty, or any other fragment of the word "pothole", is classified
    [pothole], with its score as confidence. *)
Theorem label_inside_keyword_matches :
  includes "pothole" (toLowerCase (label p)) = true ->
  category (processAIResponse (PredictionArray [p])) = Some "pothole"
  /\ department (processAIResponse (PredictionArray [p])) = Some "Road Maintenance"
  /\ confidence (processAIResponse (PredictionArray [p])) = Some (score p).
Proof.
  intros Hinside.
  assert (Hmatch : label_matches (toLowerCase (label p)) "pothole" = true)
    by (unfold label_matches; rewrite Hinside; apply orb_true_r).
  rewrite processAIResponse_single.
  unfold CATEGORY_KEYWORDS. cbn [find snd existsb].
  rewrite Hmatch. cbn [orb]. repeat split.
Qed.

End SinglePrediction.

Lemma single_prediction_takes_first_matching_category_witness :
  processAIResponse (PredictionArray [ {| label := "Street Lamp"; score := 0.7 |} ])
  = {| category := Some "streetlight";
       department := Some "Public Works";
       confidence := Some 0.7%Q;
       detectedLabels := Some ["street lamp"];
       processedImageUrl := None |}.
Proof.
  apply (single_prediction_takes_first_matching_category
           {| label := "Street Lamp"; score := 0.7 |}).
  reflexivity.
Defined.

Lemma water_label_leaves_the_declared_categories_witness :
  category (processAIResponse (PredictionArray [ {| label := "Leak"; score := 0.6 |} ]))
  = Some "water"
  /\ department
       (processAIResponse (PredictionArray [ {| label := "Leak"; score := 0.6 |} ]))
     = Some "Water Department"
  /\ valid_category "water" = false.
Proof.
  apply (water_label_leaves_the_declared_categories {| label := "Leak"; score := 0.6 |}).
  - reflexivity.
  - cbn. tauto.
Defined.

Lemma label_inside_keyword_matches_witness :
  category (processAIResponse (PredictionArray [ {| label := ""; score := 0.3 |} ]))
  = Some "pothole"
  /\ department
       (processAIResponse (PredictionArray [ {| label := ""; score := 0.3 |} ]))
     = Some "Road Maintenance"
  /\ confidence
       (processAIResponse (PredictionArray [ {| label := ""; score := 0.3 |} ]))
     = Some 0.3%Q.
Proof.
  apply (label_inside_keyword_matches {| label := ""; score := 0.3 |}); reflexivity.
Defined.

(** ** [fileToBase64] *)

Lemma split_on_comma_free (s : string) :
  comma_free s = true -> split_on comma s = [s].
Proof.
  induction s as [|c s IH]; [reflexivity|].
  cbn [comma_free split_on]. intros Hs.
  apply andb_prop in Hs as [Hc Hs]. apply negb_true_iff in Hc.
  now rewrite Hc, (IH Hs).
Qed.

Lemma split_on_comma_first (header rest : string) :
  comma_free header = true ->
  split_on comma (header ++ String comma rest) = header :: split_on comma rest.
Proof.
  induction header as [|c header IH]; intros Hh.
  - cbn [append split_on]. now rewrite Ascii.eqb_refl.
  - cbn [comma_free] in Hh. apply andb_prop in Hh as [Hc Hh].
    apply negb_true_iff in Hc.
    change (String c header ++ String comma rest)
      with (String c (header ++ String comma rest)).
    cbn [split_on]. now rewrite Hc, (IH Hh).
Qed.

(** X23.  [fileToBase64] strips the header of the data URL the reader
    produces: from [<header>,<payload>] it returns [<payload>].  When the
    payload is empty (an empty file) it returns the whole data URL, header
    and comma included, instead of an empty string; when the read fails it
    rejects. *)
Theorem fileToBase64_strips_the_header (readAsDataURL : File -> option string)
    (file : File) (header payload : string) :
  comma_free header = true ->
  comma_free payload = true ->
  readAsDataURL file = Some (header ++ String comma payload) ->
  fileToBase64 readAsDataURL file
  = Ok (if nonempty payload then payload else header ++ String comma "").
Proof.
  intros Hheader Hpayload Hread. unfold fileToBase64. rewrite Hread.
  rewrite (split_on_comma_first header payload Hheader).
  rewrite (split_on_comma_free payload Hpayload). cbn [nth_error].
  destruct payload; reflexivity.
Qed.

Lemma fileToBase64_strips_the_header_witness :
  fileToBase64 (fun _ => Some "data:image/png;base64,iVBORw0KGgo=") photo
  = Ok "iVBORw0KGgo="
  /\ fileToBase64 (fun _ => Some "data:application/octet-stream;base64,") photo
     = Ok "data:application/octet-stream;base64,".
Proof.
  split.
  - apply (fileToBase64_strips_the_header
             (fun _ => Some "data:image/png;base64,iVBORw0KGgo=") photo
             "data:image/png;base64" "iVBORw0KGgo="); reflexivity.
  - apply (fileToBase64_strips_the_header
             (fun _ => Some "data:application/octet-stream;base64,") photo
             "data:application/octet-stream;base64" ""); reflexivity.
Defined.

(** ** [handleImageChange] *)

Lemma detectIssueWithAI_returns {P : Platform} (fetch : Fetch) (imageFile : File)
    (token : option string) (g : RandomSource) :
  exists (r : AIDetectionResult) (g' : RandomSource) (c : string),
    AiService.detectIssueWithAI fetch imageFile token g = (Ok r, g')
    /\ category r = Some c
    /\ valid_category c = true
    /\ department r = lookup c DEPARTMENT_MAP.
Proof.
  unfold AiService.detectIssueWithAI.
  destruct (AiService.detectIssueWithAI_try fetch imageFile token) as [r|e] eqn:Htry.
  - exists r, g, "pothole".
    apply detectIssueWithAI_try_shape in Htry as (eventId & _ & _ & Hres).
    apply getGradioResult_shape in Hres as (u & _ & ->).
    repeat split.
  - destruct (mockAIDetection_shape imageFile g) as (c & u & Hr & Hvalid & _).
    destruct (mockAIDetection imageFile g) as [fallback g']. cbn [fst] in Hr.
    exists fallback, g', c. subst fallback. repeat split. exact Hvalid.
Qed.

Lemma shown_confidence_in_range (u : unit_interval) :
  (75 <= Math_floor (sample u * 20) + 75 <= 94)%Z.
Proof.
  destruct (sample_bounds u) as [Hlow Hhigh]. unfold Math_floor.
  assert (0 <= Qfloor (sample u * 20))%Z.
  { change 0%Z with (Qfloor 0). apply Qfloor_resp_le. lra. }
  assert (Qfloor (sample u * 20) < 20)%Z.
  { rewrite Zlt_Qlt.
    apply Qle_lt_trans with (sample u * 20)%Q; [apply Qfloor_le|].
    change (inject_Z 20) with 20%Q. lra. }
  lia.
Qed.

(** ** When [uploadImageToGradio] returns *)

Lemma event_id_needs_both_routes {P : Platform} (fetch : Fetch) (imageFile : File)
    (token : option string) (eventId : json) :
  AiService.uploadImageToGradio fetch imageFile token = Ok eventId ->
  predict_answers fetch imageFile token eventId.
Proof.
  unfold AiService.uploadImageToGradio, try_catch, bind.
  destruct (fetch _) as [response|e] eqn:Hfetch; [|discriminate].
  destruct (ok response) eqn:Hok; cbn [negb]; [|discriminate].
  assert (Htext_branch : forall text k,
             match AiService.uploaded_filePath (JStr text) with
             | Ok filePath =>
                 if negb (truthy filePath)
                 then Throw (Error "No file path received from upload")
                 else k filePath
             | Throw e => Throw e
             end <> Ok eventId) by (intros text k; cbn; intros Habs; discriminate Habs).
  destruct (contentType response) as [mime|] eqn:Hmime.
  2:{ change (includes "" "application/json") with false. cbv iota.
      destruct (Response_text response) as [text|e]; [|discriminate].
      intros Habsurd. now apply Htext_branch in Habsurd. }
  destruct (includes mime "application/json") eqn:Hjson.
  2:{ destruct (Response_text response) as [text|e]; [|discriminate].
      intros Habsurd. now apply Htext_branch in Habsurd. }
  unfold Response_json at 1. unfold bind.
  destruct (Response_text response) as [text|e] eqn:Htext; [|discriminate].
  destruct (JSON_parse text) as [uploadData|] eqn:Hparse; [|discriminate].
  destruct (AiService.uploaded_filePath uploadData) as [filePath|e] eqn:Hpath;
    [|discriminate].
  destruct (truthy filePath) eqn:Htruthy; cbn [negb]; [|discriminate].
  destruct filePath as [[| | |path| |]|]; try discriminate.
  match goal with
  | |- context [fetch ?request] =>
      destruct (fetch request) as [predictResp|e] eqn:Hpredict; [|discriminate]
  end.
  destruct (ok predictResp) eqn:Hokp; cbn [negb].
  2:{ destruct (Response_text predictResp); intros Habs; discriminate Habs. }
  unfold Response_json, bind.
  destruct (Response_text predictResp) as [ptext|e] eqn:Hptext; [|discriminate].
  destruct (JSON_parse ptext) as [predictData|] eqn:Hpparse; [|discriminate].
  destruct (get (Some predictData) "event_id") as [event_id|e] eqn:Hget;
    [|discriminate].
  intros [= <-].
  exists path, predictResp, ptext, predictData, event_id.
  repeat split; try assumption.
  exists response, mime, text, uploadData. repeat split; assumption.
Qed.

(** X25.  [uploadImageToGradio] returns exactly when both routes answer:
    the upload route with a 2xx reply declared as JSON that parses and
    holds a non-empty string as file path, the predict route with a 2xx
    reply that parses to a value other than [null]; what it returns is then
    the [event_id] of that value, or [null] when it has none.  In every
    other situation it throws. *)
Theorem event_id_iff_both_routes_answer {P : Platform} (fetch : Fetch)
    (imageFile : File) (token : option string) (eventId : json) :
  AiService.uploadImageToGradio fetch imageFile token = Ok eventId
  <-> predict_answers fetch imageFile token eventId.
Proof.
  split.
  - apply event_id_needs_both_routes.
  - apply predict_answers_event_id.
Qed.

(** ** Chunk boundaries *)

Lemma split_newline_nonempty (s : string) : split_newline s <> [].
Proof.
  destruct s as [|c s]; cbn [split_newline]; [discriminate|].
  destruct (Ascii.eqb c newline); [discriminate|].
  destruct (split_newline s); discriminate.
Qed.

Lemma split_newline_app (before after : string) :
  split_newline (before ++ nl ++ after)
  = (split_newline before ++ split_newline after)%list.
Proof.
  induction before as [|c before IH]; [reflexivity|].
  change (String c before ++ nl ++ after) with (String c (before ++ nl ++ after)).
  cbn [split_newline]. rewrite IH.
  destruct (Ascii.eqb c newline); [reflexivity|].
  pose proof (split_newline_nonempty before) as Hne.
  destruct (split_newline before); [contradiction | reflexivity].
Qed.

Section ChunkBoundaries.
Context {P : Platform}.

Lemma scan_lines_app (lines more : list string) :
  AiService.scan_lines "" (lines ++ more)%list
  = if nonempty (AiService.scan_lines "" lines)
    then AiService.scan_lines "" lines
    else AiService.scan_lines "" more.
Proof.
  induction lines as [|line lines IH]; cbn [app AiService.scan_lines nonempty];
    [reflexivity|].
  destruct (AiService.scan_line "" line) as [u|] eqn:Hline; [|exact IH].
  destruct (scan_line_prefix "" line u Hline) as [Hu _]. now rewrite Hu.
Qed.

Lemma read_frames_fullData (reader : ReadableStream) :
  forall fullData fullData' : string,
    match AiService.read_frames reader "" fullData with
    | Ok scanned => Ok (fst scanned)
    | Throw e => Throw e
    end
    = match AiService.read_frames reader "" fullData' with
      | Ok scanned => Ok (fst scanned)
      | Throw e => Throw e
      end.
Proof.
  induction reader as [|chunk rest IH|]; intros fullData fullData';
    cbn [AiService.read_frames]; try reflexivity.
  destruct (scan_lines_prefix (split_newline chunk)) as [Hnone|[Hne _]].
  - rewrite Hnone. cbn [nonempty]. apply IH.
  - rewrite Hne. reflexivity.
Qed.

(** X26.  Where the stream is cut between two lines does not matter: a
    chunk that ends with a line break followed by a second chunk yields the
    same URL, or the same failure, as the two delivered in one chunk. *)
Theorem cut_between_lines_is_harmless (first second : string)
    (rest : ReadableStream) :
  scanned_url (StreamChunk (first ++ nl) (StreamChunk second rest))
  = scanned_url (StreamChunk (first ++ nl ++ second) rest).
Proof.
  unfold scanned_url. cbn [AiService.read_frames].
  replace (first ++ nl) with (first ++ nl ++ "") by reflexivity.
  rewrite !split_newline_app, !scan_lines_app.
  change (split_newline "") with [""].
  destruct (nonempty (AiService.scan_lines "" (split_newline first))) eqn:Hfirst.
  - rewrite Hfirst. reflexivity.
  - change (AiService.scan_lines "" [""]) with "". cbn [nonempty].
    destruct (AiService.scan_lines "" (split_newline second)) as [|c u];
      cbn [nonempty]; [apply read_frames_fullData | reflexivity].
Qed.

End ChunkBoundaries.

(** ** [handleImageChange] and the service it imports *)

Lemma gradio_client_detectIssueWithAI_returns
    (connect : GradioClientService.Connect) (imageFile : File)
    (token : option string) (g : RandomSource) :
  exists (r : AIDetectionResult) (g' : RandomSource) (c : string),
    GradioClientService.detectIssueWithAI connect imageFile token g = (Ok r, g')
    /\ category r = Some c
    /\ valid_category c = true
    /\ department r = lookup c DEPARTMENT_MAP.
Proof.
  unfold GradioClientService.detectIssueWithAI.
  destruct (GradioClientService.detectIssueWithAI_try connect imageFile token)
    as [r|e] eqn:Htry.
  - unfold GradioClientService.detectIssueWithAI_try, bind in Htry.
    destruct (connect _) as [client|]; [|discriminate Htry].
    destruct (GradioClientService.predict client _ _) as [data|]; [|discriminate Htry].
    destruct (GradioClientService.destructure_pair data) as [[image text]|];
      [|discriminate Htry].
    cbn [fst snd] in Htry.
    destruct text as [[| | |text| |]|]; try discriminate Htry.
    destruct (get image "url") as [url|]; [|discriminate Htry].
    injection Htry as <-.
    destruct (extractCategoryFromClassification_valid text) as [Hvalid _].
    eexists. exists g, (GradioClientService.extractCategoryFromClassification text).
    cbn [category department]. repeat split. exact Hvalid.
  - destruct (mockAIDetection_shape imageFile g) as (c & u & Hr & Hvalid & _).
    destruct (mockAIDetection imageFile g) as [fallback g']. cbn [fst] in Hr.
    exists fallback, g', c. subst fallback. repeat split. exact Hvalid.
Qed.



(** The detection reports a confidence of 0.85 and the page shows 75. *)
Example shown_confidence_is_not_the_detections :
  let detect := AiService.detectIssueWithAI (H := stub_platform)
                  (stub_service heartbeat_then_path) in
  let form := {| image := None; detectedCategory := None; detectedDepartment := None;
                 aiConfidence := 0; isAnalyzingImage := true; toasts := [] |} in
  match fst (detect photo None cycle_source) with
  | Ok r => confidence r
  | Throw _ => None
  end = Some 0.85%Q
  /\ aiConfidence (fst (handleImageChange detect None (Some photo) form cycle_source))
     = 75%Z.
Proof. split; reflexivity. Qed.

(** ** What the bridge asks of the network *)

Section SameAnswers.
Context {P : Platform}.
Variables fetch fetch' : Fetch.
Variable imageFile : File.
Variable token : option string.
Hypothesis same_answers :
  forall request,
    bridge_request fetch imageFile token request -> fetch request = fetch' request.

Lemma uploadImageToGradio_same_answers :
  AiService.uploadImageToGradio fetch imageFile token
  = AiService.uploadImageToGradio fetch' imageFile token.
Proof.
  pose proof (same_answers (upload_request imageFile token) (or_introl eq_refl))
    as Hupload.
  unfold upload_request in Hupload.
  unfold AiService.uploadImageToGradio, try_catch, bind.
  rewrite <- Hupload.
  destruct (fetch _) as [response|e] eqn:Hfetch; [|reflexivity].
  destruct (ok response) eqn:Hok; cbn [negb]; [|reflexivity].
  destruct (contentType response) as [mime|] eqn:Hmime.
  2:{ change (includes "" "application/json") with false. cbv iota.
      destruct (Response_text response) as [text|e]; reflexivity. }
  destruct (includes mime "application/json") eqn:Hjson.
  2:{ destruct (Response_text response) as [text|e]; reflexivity. }
  unfold Response_json at 1 3. unfold bind.
  destruct (Response_text response) as [text|e] eqn:Htext; [|reflexivity].
  destruct (JSON_parse text) as [uploadData|] eqn:Hparse; [|reflexivity].
  destruct (AiService.uploaded_filePath uploadData) as [filePath|e] eqn:Hpath;
    [|reflexivity].
  destruct (truthy filePath) eqn:Htruthy; cbn [negb]; [|reflexivity].
  destruct filePath as [[| | |path| |]|]; try reflexivity.
  assert (Hup : upload_answers fetch imageFile token path).
  { exists response, mime, text, uploadData. repeat split; assumption. }
  assert (Hpredict : fetch (predict_request path token)
                     = fetch' (predict_request path token)).
  { apply same_answers. right. left. exists path. split; [exact Hup | reflexivity]. }
  unfold predict_request in Hpredict. rewrite <- Hpredict.
  reflexivity.
Qed.

Lemma getGradioResult_same_answers (eventId : json) :
  predict_answers fetch imageFile token eventId ->
  truthy (Some eventId) = true ->
  AiService.getGradioResult fetch eventId token
  = AiService.getGradioResult fetch' eventId token.
Proof.
  intros Hpredict Hid.
  assert (Hresult : fetch (result_request eventId token)
                    = fetch' (result_request eventId token)).
  { apply same_answers. right. right. exists eventId. repeat split; assumption. }
  unfold result_request in Hresult.
  unfold AiService.getGradioResult, try_catch, bind.
  rewrite <- Hresult. reflexivity.
Qed.

(** X10.  One detection sends at most three requests, and its result
    depends on the answers to these and to no other: the upload of the
    image to [<space>/gradio_api/upload]; then, for the path the upload
    answered with, the predict call to [<space>/gradio_api/call/predict];
    then, for the event id the predict call answered with, the result
    request to [<space>/gradio_api/call/predict/<event id>]; each with the
    method, the body and the headers the code builds, the token appearing
    only as bearer authorization and only when it is not empty.  Two
    services that answer alike to these requests give the same detection,
    however they differ on every other request. *)
Theorem detection_depends_on_three_requests (g : RandomSource) :
  AiService.detectIssueWithAI fetch imageFile token g
  = AiService.detectIssueWithAI fetch' imageFile token g.
Proof.
  unfold AiService.detectIssueWithAI, AiService.detectIssueWithAI_try, bind.
  rewrite <- uploadImageToGradio_same_answers.
  destruct (AiService.uploadImageToGradio fetch imageFile token) as [eventId|e] eqn:Hup;
    [|reflexivity].
  destruct (truthy (Some eventId)) eqn:Hid; cbn [negb]; [|reflexivity].
  rewrite <- (getGradioResult_same_answers eventId);
    [reflexivity | apply event_id_needs_both_routes; exact Hup | exact Hid].
Qed.

End SameAnswers.

Lemma detection_depends_on_three_requests_witness :
  AiService.detectIssueWithAI (H := stub_platform)
    (stub_service heartbeat_then_path) photo None cycle_source
  = AiService.detectIssueWithAI (H := stub_platform)
      (stub_service_elsewhere_down heartbeat_then_path) photo None cycle_source.
Proof.
  apply (detection_depends_on_three_requests (P := stub_platform)
           (stub_service heartbeat_then_path)
           (stub_service_elsewhere_down heartbeat_then_path) photo None).
  intros request [-> | [(path & _ & ->) | (eventId & _ & _ & ->)]]; reflexivity.
Defined.

(** ** The scanning loop, frame by frame *)

Lemma extractUrlFromOutput_guarded (x : jsval) :
  (if truthy x then AiService.extractUrlFromOutput x else "")
  = AiService.extractUrlFromOutput x.
Proof.
  destruct (truthy x) eqn:Hx; [reflexivity|].
  symmetry. now apply extractUrlFromOutput_falsy.
Qed.

Lemma extractUrlFromOutput_array_guarded (x : jsval) :
  (if isArray x then AiService.extractUrlFromOutput x else "")
  = AiService.extractUrlFromOutput (if isArray x then x else None).
Proof. destruct (isArray x); reflexivity. Qed.

Ltac case_nonempty :=
  repeat match goal with
         | |- context [if nonempty (?f ?x) then _ else _] =>
             let Hv := fresh "Hv" in
             destruct (nonempty (f x)) eqn:Hv; cbn [nonempty]; rewrite ?Hv
         end;
  reflexivity.

(** On a frame other than [null], the four probes of the [try] block give
    the first URL extracted from the places of [frame_probes]. *)
Lemma probe_frame_first_extracted (jsonData : json) :
  jsonData <> JNull ->
  AiService.probe_frame "" jsonData
  = Ok (let u := first_extracted AiService.extractUrlFromOutput
                   (frame_probes jsonData) in
        if nonempty u then Some u else None).
Proof.
  intros Hnull.
  pose proof extractUrlFromOutput_guarded as Hguard.
  pose proof extractUrlFromOutput_array_guarded as Harray.
  assert (Hundefined : AiService.extractUrlFromOutput None = "") by reflexivity.
  unfold AiService.probe_frame, frame_probes.
  set (E := AiService.extractUrlFromOutput) in *. clearbody E.
  cbn [nonempty negb andb first_extracted]. cbv zeta.
  destruct jsonData as [|b|n|s|items|fields]; [now contradiction Hnull| | | | |].
  - cbn. rewrite Hundefined. reflexivity.
  - cbn. rewrite Hundefined. reflexivity.
  - cbn. rewrite Hundefined. reflexivity.
  - cbn [isArray get get_optional bind truthy]. rewrite Hundefined. cbn [nonempty].
    case_nonempty.
  - cbn [isArray get get_optional bind]. rewrite Hundefined. cbn [nonempty].
    rewrite Harray.
    destruct (lookup "output" fields) as [[|b|n|s|items|ofields]|];
      cbn [truthy get get_optional bind].
    + rewrite Hundefined. cbn [nonempty]. case_nonempty.
    + destruct b; cbn [truthy get bind]; rewrite ?Hundefined; cbn [nonempty];
        case_nonempty.
    + destruct (negb (Qeq_bool n 0)) eqn:Hn; cbn [truthy get bind];
        rewrite ?Hn, ?Hundefined; cbn [nonempty]; case_nonempty.
    + destruct (nonempty s) eqn:Hs; cbn [truthy get bind];
        rewrite ?Hs, ?Hundefined; cbn [nonempty]; case_nonempty.
    + rewrite Hundefined. cbn [nonempty]. case_nonempty.
    + rewrite !Hguard. case_nonempty.
    + rewrite Hundefined. cbn [nonempty]. case_nonempty.
Qed.

Section FrameByFrame.
Context {P : Platform}.

(** A frame that holds no URL is passed over: the [try] block runs to its
    end, or is left by the [TypeError] of reading a property of [null]. *)
Lemma frame_without_url_is_passed (jsonData : json) :
  ~ frame_holds_url jsonData ->
  AiService.probe_frame "" jsonData = Ok None
  \/ AiService.probe_frame "" jsonData = Throw TypeError.
Proof.
  intros Hnone.
  assert (Hnull : jsonData = JNull \/ jsonData <> JNull).
  { destruct jsonData; (left; reflexivity) || (right; discriminate). }
  destruct Hnull as [-> | Hnull]; [right; reflexivity|].
  left. rewrite (probe_frame_first_extracted jsonData Hnull). cbv zeta.
  destruct (nonempty (first_extracted AiService.extractUrlFromOutput
                        (frame_probes jsonData))) eqn:Hu; [|reflexivity].
  exfalso. apply Hnone.
  apply first_extracted_nonempty in Hu as (x & Hx & Hfx).
  exists x. split; [exact Hx|].
  apply (extractUrlFromOutput_rec_holds (S (jsheight x))). exact Hfx.
Qed.

(** A frame that holds a URL assigns one. *)
Lemma frame_with_url_is_found (jsonData : json) :
  frame_holds_url jsonData ->
  exists u, AiService.probe_frame "" jsonData = Ok (Some u).
Proof.
  intros (x & Hx & Hholds).
  assert (Hnull : jsonData <> JNull).
  { intros ->. cbn in Hx.
    destruct Hx as [<-|[<-|[<-|[<-|[]]]]]; inversion Hholds. }
  rewrite (probe_frame_first_extracted jsonData Hnull). cbv zeta.
  assert (Hu : nonempty (first_extracted AiService.extractUrlFromOutput
                           (frame_probes jsonData)) = true).
  { apply first_extracted_nonempty. exists x. split; [exact Hx|].
    apply holds_string_extracted. exact Hholds. }
  rewrite Hu. eexists. reflexivity.
Qed.

Lemma scan_line_without_url (payload : string) :
  (forall jsonData, JSON_parse payload = Some jsonData -> ~ frame_holds_url jsonData) ->
  AiService.scan_line "" ("data: " ++ payload) = None.
Proof.
  intros Hnone. unfold AiService.scan_line.
  change (startsWith ("data: " ++ payload) "data: ") with true.
  change (substring_from 6 ("data: " ++ payload)) with payload.
  destruct (JSON_parse payload) as [jsonData|]; [|reflexivity].
  destruct (frame_without_url_is_passed jsonData (Hnone jsonData eq_refl)) as [-> | ->];
    reflexivity.
Qed.

Lemma scan_line_with_url (line : string) :
  line_holds_url line -> exists u, AiService.scan_line "" line = Some u.
Proof.
  intros (Hdata & jsonData & Hparse & Hurl). unfold AiService.scan_line.
  rewrite Hdata, Hparse.
  destruct (frame_with_url_is_found jsonData Hurl) as [u ->].
  exists u. reflexivity.
Qed.

(** A data line whose payload does not parse is skipped: the loop goes on
    with the lines that follow it. *)
Lemma scan_lines_unparsable (processedImageUrl line : string) (rest : list string) :
  startsWith line "data: " = true ->
  JSON_parse (substring_from 6 line) = None ->
  AiService.scan_lines processedImageUrl (line :: rest)
  = AiService.scan_lines processedImageUrl rest.
Proof.
  intros Hdata Hparse. cbn [AiService.scan_lines]. unfold AiService.scan_line.
  now rewrite Hdata, Hparse.
Qed.

Lemma scan_lines_found (lines : list string) (line : string) :
  In line lines -> line_holds_url line ->
  nonempty (AiService.scan_lines "" lines) = true.
Proof.
  induction lines as [|first lines IH]; intros Hin Hurl; [destruct Hin|].
  cbn [AiService.scan_lines].
  destruct (AiService.scan_line "" first) as [u|] eqn:Hfirst.
  - exact (proj1 (scan_line_prefix _ _ _ Hfirst)).
  - destruct Hin as [-> | Hin]; [|exact (IH Hin Hurl)].
    destruct (scan_line_with_url line Hurl) as [u Hu].
    rewrite Hu in Hfirst. discriminate Hfirst.
Qed.

Lemma read_frames_found (reader : ReadableStream) :
  forall (fullData chunk line : string),
    In chunk (stream_chunks reader) ->
    In line (split_newline chunk) ->
    line_holds_url line ->
    exists u fullData',
      AiService.read_frames reader "" fullData = Ok (u, fullData')
      /\ nonempty u = true.
Proof.
  induction reader as [|first rest IH|]; intros fullData chunk line Hchunk Hline Hurl;
    cbn [stream_chunks] in Hchunk; [destruct Hchunk| |destruct Hchunk].
  cbn [AiService.read_frames].
  destruct (nonempty (AiService.scan_lines "" (split_newline first))) eqn:Hfirst.
  - eexists. eexists. split; [reflexivity | exact Hfirst].
  - destruct Hchunk as [-> | Hchunk].
    + rewrite (scan_lines_found _ line Hline Hurl) in Hfirst. discriminate Hfirst.
    + destruct (AiService.scan_lines "" (split_newline first)) as [|c u];
        [|discriminate Hfirst].
      exact (IH _ chunk line Hchunk Hline Hurl).
Qed.


End FrameByFrame.


(** ** [detectIssueWithAI] over every behaviour of the remote service *)


(** The second frame of [garbled_then_path] holds a URL, after a frame
    that does not parse. *)
Example garbled_stream_holds_a_url :
  exists chunk line,
    In chunk (stream_chunks garbled_then_path)
    /\ In line (split_newline chunk)
    /\ line_holds_url (H := stub_platform) line.
Proof.
  exists ("data: " ++ path_frame_text ++ nl), ("data: " ++ path_frame_text).
  split; [right; left; reflexivity|].
  split; [left; reflexivity|].
  split; [reflexivity|].
  exists path_frame. split; [reflexivity|].
  exists (Some (JArr [JObj [("path", JStr "/tmp/out.jpg")]])).
  split; [right; left; reflexivity|].
  apply (holds_in_array _ (JObj [("path", JStr "/tmp/out.jpg")]));
    [left; reflexivity|].
  apply (holds_in_object _ (Some (JStr "/tmp/out.jpg")));
    [right; left; reflexivity|].
  apply holds_here. reflexivity.
Qed.

(** A frame that does not parse does not end the scan of its chunk: the
    frame that follows it in the same chunk gives the URL. *)
Example unparsable_frame_is_skipped_in_its_chunk :
  AiService.getGradioResult (H := stub_platform)
    (stub_service
       (StreamChunk ("data: {" ++ dq ++ "output" ++ nl
                       ++ "data: " ++ path_frame_text ++ nl) StreamDone))
    (JStr "ev1") None
  = Ok {| category := Some "pothole";
          department := Some "Road Maintenance";
          confidence := Some 0.85%Q;
          detectedLabels := Some ["pothole detected by YOLO"];
          processedImageUrl :=
            Some (JStr "https://utkarsh-23-pothole-yolo.hf.space/file=/tmp/out.jpg") |}.
Proof. reflexivity. Qed.

(** A frame that parses and holds no URL does not end it either. *)
Example frame_without_url_is_passed_in_its_chunk :
  AiService.getGradioResult (H := stub_platform_with_heartbeat)
    (stub_service
       (StreamChunk ("data: " ++ heartbeat_frame_text ++ nl
                       ++ "data: " ++ path_frame_text ++ nl) StreamDone))
    (JStr "ev1") None
  = Ok {| category := Some "pothole";
          department := Some "Road Maintenance";
          confidence := Some 0.85%Q;
          detectedLabels := Some ["pothole detected by YOLO"];
          processedImageUrl :=
            Some (JStr "https://utkarsh-23-pothole-yolo.hf.space/file=/tmp/out.jpg") |}.
Proof. reflexivity. Qed.
